(** * Admission webhook of the TemporalCluster resource

    A shallow embedding of [webhooks/temporalcluster_webhook.go]: the
    defaulting entry point [Default] with its migration of the deprecated
    [listenAddress] field, the shared rule set [validateCluster], and the
    validating entry points [ValidateCreate], [ValidateUpdate] and
    [ValidateDelete].

    Go strings are byte strings and are modelled by [string]; Go integers are
    modelled by [Z] with their wrap-around written out; a nilable pointer is an
    [option]; a Go [error] result is an [option error] ([None] is [nil]).  The
    webhook mutates the decoded object in place: here every entry point that
    mutates returns the object as it is left behind, next to its error. *)

From Stdlib Require Import ZArith NArith Bool List String Ascii Lia.
Import ListNotations.

Local Open Scope string_scope.
Local Open Scope Z_scope.

(** ** Go byte strings *)

Module GoString.

(** [len(s)] *)
Definition len (s : string) : Z := Z.of_nat (String.length s).

(** The numeric value of a byte. *)
Definition byteVal (c : ascii) : Z := Z.of_N (N_of_ascii c).

(** Position of the first byte [c] of [s], if any. *)
Fixpoint firstIndex (c : ascii) (s : string) : option nat :=
  match s with
  | EmptyString => None
  | String a s' =>
      if Ascii.eqb a c then Some O
      else match firstIndex c s' with
           | Some n => Some (S n)
           | None => None
           end
  end.

(** Position of the last byte [c] of [s], if any. *)
Fixpoint lastIndex (c : ascii) (s : string) : option nat :=
  match s with
  | EmptyString => None
  | String a s' =>
      match lastIndex c s' with
      | Some n => Some (S n)
      | None => if Ascii.eqb a c then Some O else None
      end
  end.

(** [bytealg.IndexByteString(s, c)]: -1 when [c] does not occur. *)
Definition IndexByteString (s : string) (c : ascii) : Z :=
  match firstIndex c s with
  | Some n => Z.of_nat n
  | None => -1
  end.

(** [bytealg.LastIndexByteString(s, c)]: -1 when [c] does not occur. *)
Definition LastIndexByteString (s : string) (c : ascii) : Z :=
  match lastIndex c s with
  | Some n => Z.of_nat n
  | None => -1
  end.

(** [s[lo:]] *)
Fixpoint drop (n : nat) (s : string) : string :=
  match n, s with
  | O, _ => s
  | S n', String _ s' => drop n' s'
  | S _, EmptyString => EmptyString
  end.

(** [s[:hi]] *)
Fixpoint take (n : nat) (s : string) : string :=
  match n, s with
  | S n', String a s' => String a (take n' s')
  | _, _ => EmptyString
  end.

Definition sliceFrom (s : string) (lo : Z) : string := drop (Z.to_nat lo) s.
Definition sliceTo (s : string) (hi : Z) : string := take (Z.to_nat hi) s.
(** [s[lo:hi]] *)
Definition slice (s : string) (lo hi : Z) : string :=
  take (Z.to_nat (hi - lo)) (drop (Z.to_nat lo) s).

(** [s[i]]; the callers below only read positions inside the string. *)
Definition at_ (s : string) (i : Z) : ascii :=
  match String.get (Z.to_nat i) s with
  | Some c => c
  | None => Ascii.zero
  end.

(** The byte [c] occurs in [s]. *)
Fixpoint occurs (c : ascii) (s : string) : Prop :=
  match s with
  | EmptyString => False
  | String a s' => a = c \/ occurs c s'
  end.

End GoString.
Import GoString.

(** ** Errors *)

(** [field.ErrorType], restricted to the two kinds the webhook produces. *)
Inductive ErrorType : Type :=
| ErrorTypeInvalid
| ErrorTypeForbidden.

(** [field.Path] built by [field.NewPath(name, moreNames...)]. *)
Definition Path : Type := list string.

Definition NewPath (name : string) (moreNames : list string) : Path :=
  name :: moreNames.

(** The [String] method of a path of plain names: the names joined by dots. *)
Fixpoint Path_String (p : Path) : string :=
  match p with
  | [] => ""
  | [name] => name
  | name :: rest => name ++ "." ++ Path_String rest
  end.

(** [field.Error] *)
Record FieldError : Type := mkFieldError {
  Type_ : ErrorType;
  Field : string;
  BadValue : string;
  Detail : string
}.

Definition ErrorList : Type := list FieldError.

(** [field.Invalid(path, value, detail)] *)
Definition field_Invalid (p : Path) (value : string) (detail : string) : FieldError :=
  mkFieldError ErrorTypeInvalid (Path_String p) value detail.

(** [field.Forbidden(path, detail)] *)
Definition field_Forbidden (p : Path) (detail : string) : FieldError :=
  mkFieldError ErrorTypeForbidden (Path_String p) "" detail.

(** The builtin [append(errs, e)] *)
Definition append (errs : ErrorList) (e : FieldError) : ErrorList :=
  (errs ++ [e])%list.

(** [schema.GroupKind] *)
Record GroupKind : Type := mkGroupKind {
  Group : string;
  Kind : string
}.

(** The Go [error] values that flow through the webhook. *)
Inductive error : Type :=
| ErrSyntax                                   (* strconv.ErrSyntax *)
| ErrRange                                    (* strconv.ErrRange *)
| NumError (Func Num : string) (Err : error)  (* strconv.NumError *)
| AddrError (Err Addr : string)               (* net.AddrError *)
| errors_New (text : string)                  (* errors.New(text) *)
| Errorf (text : string) (wrapped : error)    (* fmt.Errorf(text + ": %w", wrapped) *)
| NewBadRequest (reason : string)             (* apierrors.NewBadRequest *)
| NewInvalid (qualifiedKind : GroupKind) (name : string) (errs : ErrorList).
                                              (* apierrors.NewInvalid *)

(** ** [net.SplitHostPort] *)

Module net.

Definition missingPort : string := "missing port in address".
Definition tooManyColons : string := "too many colons in address".

Definition addrErr (addr why : string) : (string * string) * option error :=
  (("", ""), Some (AddrError why addr)).

(** The second half of [SplitHostPort], after [host], [j] and [k] are set. *)
Definition checkBrackets (hostport host : string) (i j k : Z)
  : (string * string) * option error :=
  if 0 <=? IndexByteString (sliceFrom hostport j) "["%char then
    addrErr hostport "unexpected '[' in address"
  else if 0 <=? IndexByteString (sliceFrom hostport k) "]"%char then
    addrErr hostport "unexpected ']' in address"
  else
    ((host, sliceFrom hostport (i + 1)), None).

Definition SplitHostPort (hostport : string) : (string * string) * option error :=
  (* The port starts after the last colon. *)
  let i := LastIndexByteString hostport ":"%char in
  if i <? 0 then addrErr hostport missingPort
  else if Ascii.eqb (at_ hostport 0) "["%char then
    (* Expect the first ']' just before the last ':'. *)
    let end_ := IndexByteString hostport "]"%char in
    if end_ <? 0 then addrErr hostport "missing ']' in address"
    else if end_ + 1 =? len hostport then
      (* There can't be a ':' behind the ']' now. *)
      addrErr hostport missingPort
    else if end_ + 1 =? i then
      (* The expected result. *)
      checkBrackets hostport (slice hostport 1 end_) i 1 (end_ + 1)
    else if Ascii.eqb (at_ hostport (end_ + 1)) ":"%char then
      addrErr hostport tooManyColons
    else addrErr hostport missingPort
  else
    let host := sliceTo hostport i in
    if 0 <=? IndexByteString host ":"%char then addrErr hostport tooManyColons
    else checkBrackets hostport host i 0 0.

End net.

(** ** [strconv.ParseInt] *)

Module strconv.

Definition fnParseUint : string := "ParseUint".
Definition fnParseInt : string := "ParseInt".

Definition syntaxError (fn str : string) : error := NumError fn str ErrSyntax.
Definition rangeError (fn str : string) : error := NumError fn str ErrRange.

Definition maxUint64 : Z := 2 ^ 64 - 1.

(** Arithmetic of [uint64] wraps around. *)
Definition uint64 (z : Z) : Z := z mod 2 ^ 64.

(** [lower(c)]: [c | ('x' - 'X')] *)
Definition lower (c : Z) : Z := Z.lor c 32.

(** [ParseUint] and [ParseInt] are embedded for [2 <= base <= 36] and
    [0 < bitSize <= 64], which covers the webhook's [ParseInt(port, 10, 32)]:
    the base switch is resolved to its [2 <= base && base <= 36] arm, [base0]
    is false and so no underscore is ever skipped, and the bit size is
    neither defaulted nor refused. *)

(** The digit of byte [c], or [None] where the source reports a syntax
    error (no digit, or a digit that is not below the base). *)
Definition digit (base : Z) (c : ascii) : option Z :=
  let v := byteVal c in
  if (48 <=? v) && (v <=? 57) then
    let d := v - 48 in
    if base <=? d then None else Some d
  else if (97 <=? lower v) && (lower v <=? 122) then
    let d := lower v - 97 + 10 in
    if base <=? d then None else Some d
  else None.

(** The loop [for _, c := range []byte(s)] of [ParseUint], from the
    accumulator [n] on. *)
Fixpoint parseLoop (s0 : string) (base cutoff maxVal : Z) (s : string) (n : Z)
  : Z * option error :=
  match s with
  | EmptyString => (n, None)
  | String c rest =>
      match digit base c with
      | None => (0, Some (syntaxError fnParseUint s0))
      | Some d =>
          if cutoff <=? n then
            (* n*base overflows *)
            (maxVal, Some (rangeError fnParseUint s0))
          else
            let n' := uint64 (n * base) in
            let n1 := uint64 (n' + d) in
            if (n1 <? n') || (maxVal <? n1) then
              (* n+d overflows *)
              (maxVal, Some (rangeError fnParseUint s0))
            else parseLoop s0 base cutoff maxVal rest n1
      end
  end.

(** [ParseUint(s, base, bitSize)] *)
Definition ParseUint (s : string) (base bitSize : Z) : Z * option error :=
  if String.eqb s "" then (0, Some (syntaxError fnParseUint s))
  else
    (* Cutoff is the smallest number such that cutoff*base > maxUint64. *)
    let cutoff := maxUint64 / base + 1 in
    let maxVal := uint64 (uint64 (Z.shiftl 1 bitSize) - 1) in
    parseLoop s base cutoff maxVal s 0.

Definition isRange (e : error) : bool :=
  match e with
  | NumError _ _ ErrRange => true
  | _ => false
  end.

(** [ParseInt(s, base, bitSize)] *)
Definition ParseInt (s : string) (base bitSize : Z) : Z * option error :=
  if String.eqb s "" then (0, Some (syntaxError fnParseInt s))
  else
    (* Pick off leading sign. *)
    let s0 := s in
    let '(neg, s) :=
      if Ascii.eqb (at_ s 0) "+"%char then (false, sliceFrom s 1)
      else if Ascii.eqb (at_ s 0) "-"%char then (true, sliceFrom s 1)
      else (false, s) in
    (* Convert unsigned and check range. *)
    let '(un, err) := ParseUint s base bitSize in
    if match err with Some e => negb (isRange e) | None => false end then
      (0, Some (syntaxError fnParseInt s0))
    else
      let cutoff := uint64 (Z.shiftl 1 (bitSize - 1)) in
      if negb neg && (cutoff <=? un) then
        (cutoff - 1, Some (rangeError fnParseInt s0))
      else if neg && (cutoff <? un) then
        (- cutoff, Some (rangeError fnParseInt s0))
      else
        ((if neg then - un else un), None).

End strconv.

(** ** Package [version] *)

Module version.

(** The (major, minor, patch) triple of a parsed [semver.Version]. *)
Record SemVer : Type := mkSemVer {
  Major : N;
  Minor : N;
  Patch : N
}.

(** Modelled from the spec: the declaration of the type [version.Version]
    is not available.  It wraps a semantic version (the webhook reads the
    embedded pointer as [Spec.Version.Version]); the pointer is [None] for a
    version whose string cannot be parsed into (major, minor, patch). *)
Record Version : Type := mkVersion {
  Semver : option SemVer
}.

Definition ofTriple (major minor patch : N) : Version :=
  mkVersion (Some (mkSemVer major minor patch)).

(** A [semver.Constraints], seen through its [Check] method. *)
Definition Constraints : Type := SemVer -> bool.

(** [c.Check(v)] for the embedded pointer [v] of a [Version]; a version
    without (major, minor, patch) satisfies no constraint. *)
Definition Check (c : Constraints) (v : option SemVer) : bool :=
  match v with
  | Some sv => c sv
  | None => false
  end.

(** The total order on (major, minor, patch). *)
Definition compare (a b : SemVer) : comparison :=
  match N.compare (Major a) (Major b) with
  | Eq => match N.compare (Minor a) (Minor b) with
          | Eq => N.compare (Patch a) (Patch b)
          | c => c
          end
  | c => c
  end.

(** Modelled from the spec: the source of [GreaterOrEqual] is not
    available.  It is true iff this version is at least the milestone under
    the total order on (major, minor, patch). *)
Definition GreaterOrEqual (v milestone : Version) : bool :=
  match Semver v, Semver milestone with
  | Some a, Some b =>
      match compare a b with
      | Lt => false
      | _ => true
      end
  | _, _ => false
  end.

(** The milestone from which the legacy search backend is unsupported. *)
Definition V1_18_0 : Version := ofTriple 1 18 0.

(** Modelled from the spec: the source of [Validate] is not available.  It
    fails with unsupported-version when the version does not lie within the
    configured supported range. *)
Definition Validate (supported : Constraints) (v : Version) : option error :=
  if Check supported (Semver v) then None
  else Some (errors_New "unsupported-version").

(** Modelled from the spec: the source of [UpgradeConstraint] is not
    available.  It fails with malformed-version if the version cannot be
    parsed into (major, minor, patch); otherwise it returns the predicate
    that holds of the candidates with the same major and with
    minor = this minor + 1, the patch being unconstrained. *)
Definition UpgradeConstraint (v : Version) : Constraints + error :=
  match Semver v with
  | None => inr (errors_New "malformed-version")
  | Some this =>
      inl (fun candidate =>
             N.eqb (Major candidate) (Major this)
             && N.eqb (Minor candidate) (Minor this + 1))
  end.

End version.

(** ** The resource, package [v1beta1]

    The type declarations are not available; the fields below are the ones
    the webhook reads or writes. *)

Record PrometheusSpec : Type := mkPrometheusSpec {
  ListenAddress : string;      (* deprecated combined form *)
  ListenPort : option Z        (* *int32 *)
}.

Record MetricsSpec : Type := mkMetricsSpec {
  Enabled : bool;
  Prometheus : option PrometheusSpec
}.

Record MTLSSpec : Type := mkMTLSSpec {
  Provider : string
}.

Record ElasticsearchSpec : Type := mkElasticsearchSpec {
  Elasticsearch_Version : string
}.

Record DatastoreSpec : Type := mkDatastoreSpec {
  Elasticsearch : option ElasticsearchSpec
}.

Record TemporalPersistenceSpec : Type := mkTemporalPersistenceSpec {
  AdvancedVisibilityStore : option DatastoreSpec
}.

Record TemporalClusterSpec : Type := mkTemporalClusterSpec {
  Version : version.Version;
  Metrics : option MetricsSpec;
  MTLS : option MTLSSpec;
  Persistence : TemporalPersistenceSpec
}.

Record TemporalCluster : Type := mkTemporalCluster {
  GroupVersionKind_GroupKind : GroupKind;
  GetName : string;
  Spec : TemporalClusterSpec
}.

(** The mTLS provider that needs the cert-manager integration. *)
Definition CertManagerMTLSProvider : string := "cert-manager".

(** Modelled from the spec: the source of [MetricsEnabled] is not
    available.  Metrics are enabled when the optional metrics block is
    present and switched on. *)
Definition MetricsEnabled (m : option MetricsSpec) : bool :=
  match m with
  | Some m => Enabled m
  | None => false
  end.

(** Modelled from the spec: the source of [MTLSWithCertManagerEnabled] is
    not available.  It holds when mTLS is requested with the provider that
    requires the certificate-issuer integration. *)
Definition MTLSWithCertManagerEnabled (c : TemporalCluster) : bool :=
  match MTLS (Spec c) with
  | Some m => String.eqb (Provider m) CertManagerMTLSProvider
  | None => false
  end.

(** Assignment through the pointers [cluster.Spec.Metrics.Prometheus]. *)
Definition updatePrometheus (f : PrometheusSpec -> PrometheusSpec)
    (c : TemporalCluster) : TemporalCluster :=
  let s := Spec c in
  let metrics :=
    match Metrics s with
    | Some m => Some (mkMetricsSpec (Enabled m) (option_map f (Prometheus m)))
    | None => None
    end in
  mkTemporalCluster (GroupVersionKind_GroupKind c) (GetName c)
    (mkTemporalClusterSpec (Version s) metrics (MTLS s) (Persistence s)).

Definition set_ListenAddress (a : string) : TemporalCluster -> TemporalCluster :=
  updatePrometheus (fun p => mkPrometheusSpec a (ListenPort p)).

Definition set_ListenPort (n : option Z) : TemporalCluster -> TemporalCluster :=
  updatePrometheus (fun p => mkPrometheusSpec (ListenAddress p) n).

(** [cluster.Spec.Metrics.Prometheus], read through the metrics pointer. *)
Definition prometheusOf (c : TemporalCluster) : option PrometheusSpec :=
  match Metrics (Spec c) with
  | Some m => Prometheus m
  | None => None
  end.

(** An optional field after defaulting: a field that is set is left as it
    is, an omitted one gets the default, if there is one. *)
Definition orDefault {A : Type} (default field : option A) : option A :=
  match field with
  | Some x => Some x
  | None => default
  end.

(** The schema defaults of the optional fields of the resource.  An omitted
    block that the schema creates is created empty and its fields are then
    filled like any other.  The legacy [listenAddress] has no default: the
    spec has it empty after defaulting. *)
Record SchemaDefaults : Type := mkSchemaDefaults {
  default_Metrics : option bool;   (* an omitted metrics block, its [Enabled] *)
  default_Prometheus : bool;       (* an omitted Prometheus block is created *)
  default_ListenPort : option Z;
  default_MTLS : option MTLSSpec;
  default_AdvancedVisibilityStore : option DatastoreSpec;
  default_Elasticsearch : option ElasticsearchSpec
}.

Definition default_PrometheusSpec (d : SchemaDefaults)
    (prom : option PrometheusSpec) : option PrometheusSpec :=
  let created :=
    orDefault
      (if default_Prometheus d then Some (mkPrometheusSpec "" None) else None)
      prom in
  option_map
    (fun p =>
       mkPrometheusSpec (ListenAddress p)
         (orDefault (default_ListenPort d) (ListenPort p)))
    created.

Definition default_MetricsSpec (d : SchemaDefaults)
    (metrics : option MetricsSpec) : option MetricsSpec :=
  let created :=
    orDefault
      (option_map (fun enabled => mkMetricsSpec enabled None) (default_Metrics d))
      metrics in
  option_map
    (fun m => mkMetricsSpec (Enabled m) (default_PrometheusSpec d (Prometheus m)))
    created.

Definition default_PersistenceSpec (d : SchemaDefaults)
    (persistence : TemporalPersistenceSpec) : TemporalPersistenceSpec :=
  mkTemporalPersistenceSpec
    (option_map
       (fun store =>
          mkDatastoreSpec
            (orDefault (default_Elasticsearch d) (Elasticsearch store)))
       (orDefault (default_AdvancedVisibilityStore d)
          (AdvancedVisibilityStore persistence))).

(** Modelled from the spec: the source of the resource's own [Default()],
    which the webhook calls last, is not available.  It applies the
    remaining default values for any omitted optional field: a field that is
    set stays as it is, an omitted field gets its schema default. *)
Definition TemporalCluster_Default (d : SchemaDefaults) (c : TemporalCluster)
  : TemporalCluster :=
  let s := Spec c in
  mkTemporalCluster (GroupVersionKind_GroupKind c) (GetName c)
    (mkTemporalClusterSpec (Version s)
       (default_MetricsSpec d (Metrics s))
       (orDefault (default_MTLS d) (MTLS s))
       (default_PersistenceSpec d (Persistence s))).

(** The conversion [int32(z)] of an [int64]. *)
Definition int32 (z : Z) : Z := (z + 2 ^ 31) mod 2 ^ 32 - 2 ^ 31.

(** [runtime.Object]: the decoded request object. *)
Inductive Object : Type :=
| ObjTemporalCluster (cluster : TemporalCluster)
| ObjOther (goType : string).

(** [discovery.AvailableAPIs], the capability snapshot. *)
Record AvailableAPIs : Type := mkAvailableAPIs {
  CertManager : bool
}.

Record TemporalClusterWebhook : Type := mkTemporalClusterWebhook {
  AvailableAPIs_ : AvailableAPIs
}.

(** ** The end-to-end harness, [tests/e2e/main_test.go]

    The setup step that deploys the operator rewrites, in every Deployment
    it decodes, the containers that run the published operator image, so
    that they run the image loaded into the test cluster. *)

Module e2e.

(** [strings.HasPrefix(s, prefix)] *)
Fixpoint HasPrefix (s prefix : string) {struct prefix} : bool :=
  match prefix, s with
  | EmptyString, _ => true
  | String p prefix', String c s' => Ascii.eqb c p && HasPrefix s' prefix'
  | String _ _, EmptyString => false
  end.

(** [strings.Contains(s, substr)]: [substr] is within [s]. *)
Fixpoint Contains (s substr : string) : bool :=
  HasPrefix s substr
  || match s with
     | EmptyString => false
     | String _ s' => Contains s' substr
     end.

(** The fields of [corev1.Container] that the step reads or writes. *)
Record Container : Type := mkContainer {
  Name : string;
  Image : string;
  ImagePullPolicy : string
}.

(** The name that the published operator images hold. *)
Definition publishedImage : string := "ghcr.io/alexandrevilain/temporal-operator".

(** [Containers[i]]; [None] past the end. *)
Definition at_index (containers : list Container) (i : nat) : option Container :=
  nth_error containers i.

(** [Containers[i] = c]; a list as long as before. *)
Fixpoint set_index (containers : list Container) (i : nat) (c : Container)
  : list Container :=
  match containers, i with
  | [], _ => []
  | _ :: rest, O => c :: rest
  | x :: rest, S i' => x :: set_index rest i' c
  end.

(** One turn of [for i, container := range Containers]: the two
    assignments through index [i]. *)
Definition patchAt (containers : list Container) (i : nat) : list Container :=
  match at_index containers i with
  | Some container =>
      if Contains (Image container) publishedImage then
        let containers :=
          match at_index containers i with
          | Some c =>
              set_index containers i
                (mkContainer (Name c) "temporal-operator" (ImagePullPolicy c))
          | None => containers
          end in
        match at_index containers i with
        | Some c =>
            set_index containers i
              (mkContainer (Name c) (Image c) "IfNotPresent")
        | None => containers
        end
      else containers
  | None => containers
  end.

(** The loop over the containers of a decoded Deployment. *)
Definition useLoadedImage (containers : list Container) : list Container :=
  fold_left patchAt (seq 0 (List.length containers)) containers.

(** What the loop does to one container. *)
Definition patched (c : Container) : Container :=
  if Contains (Image c) publishedImage
  then mkContainer (Name c) "temporal-operator" "IfNotPresent"
  else c.

End e2e.

(** ** Sample configuration and requests *)

Module Sample.

(** A supported range of 1.17 up to 1.23, any patch. *)
Definition supported : version.Constraints :=
  fun v => N.eqb (version.Major v) 1
           && N.leb 17 (version.Minor v) && N.leb (version.Minor v) 23.

Definition supportedString : string := ">=1.17.0 <1.24.0".

(** Bulk defaulting that finds no omitted field to fill. *)
Definition nothingOmitted (c : TemporalCluster) : TemporalCluster := c.

Definition groupKind : GroupKind := mkGroupKind "temporal.io" "TemporalCluster".

Definition withCertManager : TemporalClusterWebhook :=
  mkTemporalClusterWebhook (mkAvailableAPIs true).

Definition withoutCertManager : TemporalClusterWebhook :=
  mkTemporalClusterWebhook (mkAvailableAPIs false).

(** A cluster named "prod" with the given version and blocks. *)
Definition cluster (v : version.Version) (metrics : option MetricsSpec)
    (mtls : option MTLSSpec) (store : option DatastoreSpec) : TemporalCluster :=
  mkTemporalCluster groupKind "prod"
    (mkTemporalClusterSpec v metrics mtls (mkTemporalPersistenceSpec store)).

(** Metrics switched on, with the given Prometheus listen fields. *)
Definition prometheus (address : string) (port : option Z) : option MetricsSpec :=
  Some (mkMetricsSpec true (Some (mkPrometheusSpec address port))).

Definition elasticsearch (v : string) : option DatastoreSpec :=
  Some (mkDatastoreSpec (Some (mkElasticsearchSpec v))).

Definition certManagerMTLS : option MTLSSpec :=
  Some (mkMTLSSpec CertManagerMTLSProvider).

(** Version 1.18.0 with only the legacy listen address set. *)
Definition legacyAddress (address : string) : TemporalCluster :=
  cluster (version.ofTriple 1 18 0) (prometheus address None) None None.

(** Version 1.18.0 with both the legacy address and the port set. *)
Definition bothListenFields : TemporalCluster :=
  cluster (version.ofTriple 1 18 0) (prometheus "0.0.0.0:9090" (Some 9090))
    None None.

(** After the migration of "0.0.0.0:9090". *)
Definition migrated : TemporalCluster :=
  cluster (version.ofTriple 1 18 0) (prometheus "" (Some 9090)) None None.

(** Nothing but a version. *)
Definition bare (v : version.Version) : TemporalCluster :=
  cluster v None None None.

(** Version 1.18.0 asking for mTLS through cert-manager. *)
Definition withMTLS : TemporalCluster :=
  cluster (version.ofTriple 1 18 0) None certManagerMTLS None.

(** An advanced visibility store on Elasticsearch v6. *)
Definition legacySearch (v : version.Version) : TemporalCluster :=
  cluster v None None (elasticsearch "v6").

(** A stored version whose string does not parse. *)
Definition unparsed : version.Version := version.mkVersion None.

(** Schema defaults that create the Prometheus block and listen on 9090. *)
Definition defaults : SchemaDefaults :=
  mkSchemaDefaults None true (Some 9090) None None None.

(** Metrics switched off, the legacy address set and the port unset. *)
Definition metricsOff : TemporalCluster :=
  cluster (version.ofTriple 1 18 0)
    (Some (mkMetricsSpec false (Some (mkPrometheusSpec "0.0.0.0:7000" None))))
    None None.

(** [metricsOff] after the schema defaults [defaults]. *)
Definition metricsOffDefaulted : TemporalCluster :=
  cluster (version.ofTriple 1 18 0)
    (Some (mkMetricsSpec false
             (Some (mkPrometheusSpec "0.0.0.0:7000" (Some 9090)))))
    None None.

End Sample.

(** ** The webhook *)

Section Webhook.

(** [version.SupportedVersionsRange] and its [String()]: process-wide
    configuration of package [version], whose value is not available. *)
Variable SupportedVersionsRange : version.Constraints.
Variable SupportedVersionsRange_String : string.

(** The method [Default()] of the resource, the bulk filling of omitted
    optional fields with their schema defaults, declared in package
    [v1beta1]; its source is not available. *)
Variable cluster_Default : TemporalCluster -> TemporalCluster.

Definition getClusterFromRequest (w : TemporalClusterWebhook) (obj : Object)
  : TemporalCluster + error :=
  match obj with
  | ObjTemporalCluster cluster => inl cluster
  | ObjOther goType =>
      inr (NewBadRequest ("expected an TemporalCluster but got a " ++ goType))
  end.

Definition aggregateClusterErrors (w : TemporalClusterWebhook)
    (cluster : TemporalCluster) (errs : ErrorList) : option error :=
  if Nat.eqb (List.length errs) 0 then None
  else Some (NewInvalid (GroupVersionKind_GroupKind cluster) (GetName cluster) errs).

(** The migration block of [Default]: the cluster as the block leaves it,
    and the error [Default] returns from inside the block, if any. *)
Definition migrateListenAddress (cluster : TemporalCluster)
  : TemporalCluster * option error :=
  if MetricsEnabled (Metrics (Spec cluster)) then
    match prometheusOf cluster with
    | Some prom =>
        (* If the user has set the deprecated ListenAddress field and not
           the new ListenPort, parse the listenAddress and set the
           listenPort. *)
        if negb (String.eqb (ListenAddress prom) "")
           && match ListenPort prom with None => true | Some _ => false end
        then
          let '((_, port), err) := net.SplitHostPort (ListenAddress prom) in
          match err with
          | Some err =>
              (cluster,
               Some (Errorf "can't parse prometheus spec.metrics.prometheus.listenAddress" err))
          | None =>
              let '(portInt, err) := strconv.ParseInt port 10 32 in
              match err with
              | Some err =>
                  (cluster,
                   Some (Errorf "can't parse prometheus spec.metrics.prometheus.listenAddress port" err))
              | None =>
                  (* Empty the listen adress *)
                  let cluster := set_ListenAddress "" cluster in
                  let cluster := set_ListenPort (Some (int32 portInt)) cluster in
                  (cluster, None)
              end
          end
        else (cluster, None)
    | None => (cluster, None)
    end
  else (cluster, None).

(** [Default] ensures empty fields have their default value.  It returns
    the object as the call leaves it, and the error. *)
Definition Default (w : TemporalClusterWebhook) (obj : Object)
  : Object * option error :=
  match getClusterFromRequest w obj with
  | inr err => (obj, Some err)
  | inl cluster =>
      let '(cluster, err) := migrateListenAddress cluster in
      match err with
      | Some err => (ObjTemporalCluster cluster, Some err)
      | None =>
          (* Finish by setting default values *)
          (ObjTemporalCluster (cluster_Default cluster), None)
      end
  end.

(** The entries that the rules append.  The first one reads
    [cluster.Spec.MTLS.Provider]; the rule builds it only when the mTLS
    block is present. *)
Definition mTLSProviderError (cluster : TemporalCluster) : FieldError :=
  field_Invalid
    (NewPath "spec" ["mTLS"; "provider"])
    (match MTLS (Spec cluster) with Some m => Provider m | None => "" end)
    "Can't use cert-manager as mTLS provider as it's not available in the cluster".

Definition unsupportedVersionError : FieldError :=
  field_Forbidden
    (NewPath "spec" ["version"])
    ("Unsupported temporal version (supported: "
       ++ SupportedVersionsRange_String ++ ")").

Definition elasticsearchV6Error : FieldError :=
  field_Forbidden
    (NewPath "spec" ["persistence"; "advancedVisibilityStore"; "elasticsearch"; "version"])
    "temporal cluster version >= 1.18.0 doesn't support ElasticSearch v6".

Definition sequentialUpgradeError : FieldError :=
  field_Forbidden
    (NewPath "spec" ["version"])
    "Unauthorized version upgrade. Only sequential version upgrades are allowed (from v1.n.x to v1.n+1.x)".

(** The condition of the third rule on the persistence block. *)
Definition elasticsearchV6 (cluster : TemporalCluster) : bool :=
  match AdvancedVisibilityStore (Persistence (Spec cluster)) with
  | Some store =>
      match Elasticsearch store with
      | Some es => String.eqb (Elasticsearch_Version es) "v6"
      | None => false
      end
  | None => false
  end.

Definition validateCluster (w : TemporalClusterWebhook)
    (cluster : TemporalCluster) : ErrorList :=
  let errs : ErrorList := [] in
  (* If mTLS is enabled using cert-manager, but cert-manager support is
     disabled on the controller it can't process the request, return the
     error. *)
  let errs :=
    if MTLSWithCertManagerEnabled cluster && negb (CertManager (AvailableAPIs_ w))
    then append errs (mTLSProviderError cluster)
    else errs in
  (* Validate that the cluster version is a supported one. *)
  let err := version.Validate SupportedVersionsRange (Version (Spec cluster)) in
  let errs :=
    match err with
    | Some _ => append errs unsupportedVersionError
    | None => errs
    end in
  (* Ensure ElasticSearch v6 is not used with cluster >= 1.18.0 *)
  let errs :=
    if version.GreaterOrEqual (Version (Spec cluster)) version.V1_18_0
       && elasticsearchV6 cluster
    then append errs elasticsearchV6Error
    else errs in
  errs.

(** [ValidateCreate] ensures the user is creating a consistent temporal
    cluster. *)
Definition ValidateCreate (w : TemporalClusterWebhook) (obj : Object)
  : option error :=
  match getClusterFromRequest w obj with
  | inr err => Some err
  | inl cluster =>
      let errs := validateCluster w cluster in
      aggregateClusterErrors w cluster errs
  end.

(** [ValidateUpdate] validates TemporalCluster updates.  It mainly checks
    for sequential version upgrades. *)
Definition ValidateUpdate (w : TemporalClusterWebhook) (oldObj newObj : Object)
  : option error :=
  match getClusterFromRequest w oldObj with
  | inr err => Some err
  | inl oldCluster =>
      match getClusterFromRequest w newObj with
      | inr err => Some err
      | inl newCluster =>
          let errs := validateCluster w newCluster in
          (* Ensure user is doing a sequential version upgrade. *)
          match version.UpgradeConstraint (Version (Spec oldCluster)) with
          | inr err =>
              Some (Errorf "can't compute version upgrade constraint" err)
          | inl constraint =>
              let allowed :=
                version.Check constraint
                  (version.Semver (Version (Spec newCluster))) in
              let errs :=
                if negb allowed then append errs sequentialUpgradeError
                else errs in
              aggregateClusterErrors w newCluster errs
          end
      end
  end.

(** [ValidateDelete] does nothing. *)
Definition ValidateDelete (w : TemporalClusterWebhook) (obj : Object)
  : option error :=
  (* No delete validation needed. *)
  None.

(** ** Vocabulary of the statements *)

(** No byte of [s] is a colon or a square bracket. *)
Definition plain (s : string) : Prop :=
  ~ occurs ":"%char s /\ ~ occurs "["%char s /\ ~ occurs "]"%char s.

(** [HostPort a host port]: the address [a] is a valid host:port pair,
    either [host:port] or, for a host that has colons of its own,
    [[host]:port]. *)
Inductive HostPort : string -> string -> string -> Prop :=
| HostPort_name (host port : string) :
    plain host -> plain port ->
    HostPort (host ++ ":" ++ port) host port
| HostPort_literal (host port : string) :
    ~ occurs "["%char host -> ~ occurs "]"%char host -> plain port ->
    HostPort ("[" ++ host ++ "]:" ++ port) host port.

Definition isDigit (c : ascii) : bool :=
  (48 <=? byteVal c) && (byteVal c <=? 57).

(** The number that the decimal digits of [s] denote after the digits
    already read as [acc]; no bound applies. *)
Fixpoint digitsValue (acc : Z) (s : string) : option Z :=
  match s with
  | EmptyString => Some acc
  | String c rest =>
      if isDigit c then digitsValue (10 * acc + (byteVal c - 48)) rest
      else None
  end.

(** The integer that [s] denotes in base 10: an optional sign and at least
    one digit. *)
Definition base10 (s : string) : option Z :=
  match s with
  | EmptyString => None
  | String c rest =>
      if Ascii.eqb c "+"%char then
        match rest with
        | EmptyString => None
        | _ => digitsValue 0 rest
        end
      else if Ascii.eqb c "-"%char then
        match rest with
        | EmptyString => None
        | _ => option_map Z.opp (digitsValue 0 rest)
        end
      else digitsValue 0 s
  end.

(** [z] fits a signed 32-bit integer. *)
Definition fitsInt32 (z : Z) : Prop := - 2 ^ 31 <= z < 2 ^ 31.

(** The legacy address of [cluster] is subject to migration. *)
Definition needsMigration (cluster : TemporalCluster) (address : string) : Prop :=
  MetricsEnabled (Metrics (Spec cluster)) = true
  /\ exists prom,
       prometheusOf cluster = Some prom
       /\ ListenAddress prom = address
       /\ address <> ""
       /\ ListenPort prom = None.

(** The legacy combined field and the split field are not both set. *)
Definition mutuallyExclusive (cluster : TemporalCluster) : Prop :=
  forall prom,
    prometheusOf cluster = Some prom ->
    ~ (ListenAddress prom <> "" /\ ListenPort prom <> None).

(** The legacy combined field and the split field are both set. *)
Definition bothSet (cluster : TemporalCluster) : Prop :=
  exists prom,
    prometheusOf cluster = Some prom
    /\ ListenAddress prom <> "" /\ ListenPort prom <> None.

(** The malformed-address errors of [Default]. *)
Definition malformedAddress (address : string) (e : error) : Prop :=
  (exists why,
      e = Errorf "can't parse prometheus spec.metrics.prometheus.listenAddress"
            (AddrError why address))
  \/ (exists port cause,
         e = Errorf "can't parse prometheus spec.metrics.prometheus.listenAddress port"
               (NumError "ParseInt" port cause)).

(** Modelled from the spec: the source of the resource's own [Default()],
    the bulk defaulting, is not available.  The statements assume of it what
    the spec says: it applies the remaining defaults, so it leaves the
    metrics block as the migration left it, and a second run finds nothing
    more to fill. *)
Definition leavesMetrics (f : TemporalCluster -> TemporalCluster) : Prop :=
  forall c, Metrics (Spec (f c)) = Metrics (Spec c).

Definition fillsOnce (f : TemporalCluster -> TemporalCluster) : Prop :=
  forall c, f (f c) = f c.

(** The two bounds of the loop of [ParseUint] for a 32-bit result. *)
Definition cutoff64 : Z := strconv.maxUint64 / 10 + 1.
Definition maxVal32 : Z := strconv.uint64 (strconv.uint64 (Z.shiftl 1 32) - 1).

(** The candidate version is one sequential minor upgrade away from [old]:
    same major, next minor, any patch. *)
Definition sequentialUpgrade (old : version.SemVer) (v : version.Version) : Prop :=
  exists candidate,
    version.Semver v = Some candidate
    /\ version.Major candidate = version.Major old
    /\ version.Minor candidate = (version.Minor old + 1)%N.

(** The version is at least 1.18.0 in the order on (major, minor, patch). *)
Definition atLeast_1_18_0 (v : version.Version) : Prop :=
  exists sv,
    version.Semver v = Some sv
    /\ (1 < version.Major sv
        \/ (version.Major sv = 1 /\ 18 <= version.Minor sv))%N.

(** The advanced visibility store is configured with this Elasticsearch
    version. *)
Definition elasticsearchVersion (cluster : TemporalCluster) (v : string) : Prop :=
  exists store es,
    AdvancedVisibilityStore (Persistence (Spec cluster)) = Some store
    /\ Elasticsearch store = Some es
    /\ Elasticsearch_Version es = v.

(** Some entry of [errs] sits at the field path [path]. *)
Definition hasErrorAt (path : string) (errs : ErrorList) : Prop :=
  exists e, In e errs /\ Field e = path.

(** Split the disjunctions that membership in a literal list unfolds to. *)
Ltac split_members :=
  repeat match goal with
         | H : _ \/ _ |- _ => destruct H
         | H : False |- _ => destruct H
         end.

(** ** Byte strings *)

Lemma occurs_app (c : ascii) (s t : string) :
  occurs c (s ++ t) <-> occurs c s \/ occurs c t.
Proof using Type.
  induction s as [|a s IH]; simpl; [tauto|].
  rewrite IH. tauto.
Qed.

Lemma firstIndex_None (c : ascii) (s : string) :
  firstIndex c s = None <-> ~ occurs c s.
Proof using Type.
  induction s as [|a s IH]; simpl; [tauto|].
  destruct (Ascii.eqb_spec a c) as [->|Hne].
  - split; [discriminate | intros H; exfalso; apply H; now left].
  - destruct (firstIndex c s) as [n|].
    + split; [discriminate|]. intros H.
      assert (Some n = None) by (apply IH; tauto). discriminate.
    + split; [|reflexivity]. intros _ [H|H]; [congruence|].
      now apply (proj1 IH).
Qed.

Lemma lastIndex_None (c : ascii) (s : string) :
  lastIndex c s = None <-> ~ occurs c s.
Proof using Type.
  induction s as [|a s IH]; simpl; [tauto|].
  destruct (lastIndex c s).
  - split; [discriminate|]. intros H. exfalso.
    destruct IH as [_ IH]. assert (Some n = None) by (apply IH; tauto).
    discriminate.
  - destruct (Ascii.eqb_spec a c) as [->|Hne].
    + split; [discriminate | intros H; exfalso; apply H; now left].
    + split; [|reflexivity]. intros _ [H|H]; [congruence|].
      now apply (proj1 IH).
Qed.

Lemma firstIndex_Some (c : ascii) (s : string) (n : nat) :
  firstIndex c s = Some n ->
  exists pre post,
    s = pre ++ String c post /\ String.length pre = n /\ ~ occurs c pre.
Proof using Type.
  revert n. induction s as [|a s IH]; simpl; intros n H; [discriminate|].
  destruct (Ascii.eqb_spec a c) as [->|Hne].
  - injection H as <-. exists "", s. simpl. tauto.
  - destruct (firstIndex c s) as [m|] eqn:E; [|discriminate].
    injection H as <-.
    destruct (IH m eq_refl) as (pre & post & -> & Hlen & Hno).
    exists (String a pre), post. simpl. repeat split; [congruence|].
    intros [H|H]; [congruence | tauto].
Qed.

Lemma lastIndex_Some (c : ascii) (s : string) (n : nat) :
  lastIndex c s = Some n ->
  exists pre post,
    s = pre ++ String c post /\ String.length pre = n /\ ~ occurs c post.
Proof using Type.
  revert n. induction s as [|a s IH]; simpl; intros n H; [discriminate|].
  destruct (lastIndex c s) as [m|] eqn:E.
  - injection H as <-.
    destruct (IH m eq_refl) as (pre & post & -> & Hlen & Hno).
    exists (String a pre), post. simpl. repeat split; [congruence | exact Hno].
  - destruct (Ascii.eqb_spec a c) as [->|Hne]; [|discriminate].
    injection H as <-. exists "", s. simpl. repeat split.
    now apply lastIndex_None.
Qed.

Lemma firstIndex_app (c : ascii) (pre post : string) :
  ~ occurs c pre ->
  firstIndex c (pre ++ String c post) = Some (String.length pre).
Proof using Type.
  induction pre as [|a pre IH]; simpl; intros Hno.
  - now rewrite Ascii.eqb_refl.
  - destruct (Ascii.eqb_spec a c) as [->|Hne]; [tauto|].
    rewrite IH; tauto.
Qed.

Lemma lastIndex_app (c : ascii) (pre post : string) :
  ~ occurs c post ->
  lastIndex c (pre ++ String c post) = Some (String.length pre).
Proof using Type.
  intros Hno. induction pre as [|a pre IH]; simpl.
  - apply lastIndex_None in Hno. rewrite Hno. now rewrite Ascii.eqb_refl.
  - now rewrite IH.
Qed.

Lemma take_app (s t : string) : take (String.length s) (s ++ t) = s.
Proof using Type. induction s as [|a s IH]; simpl; [now destruct t | now rewrite IH]. Qed.

Lemma drop_app (s t : string) : drop (String.length s) (s ++ t) = t.
Proof using Type. induction s as [|a s IH]; simpl; [reflexivity | exact IH]. Qed.

Lemma length_app (s t : string) :
  String.length (s ++ t) = (String.length s + String.length t)%nat.
Proof using Type. induction s as [|a s IH]; simpl; [reflexivity | now rewrite IH]. Qed.

Lemma app_assoc (s t u : string) : (s ++ t) ++ u = s ++ t ++ u.
Proof using Type. induction s as [|a s IH]; simpl; [reflexivity | now rewrite IH]. Qed.

Lemma app_inv_length (a b c d : string) :
  a ++ b = c ++ d -> String.length a = String.length c -> a = c /\ b = d.
Proof using Type.
  revert c. induction a as [|x a IH]; intros [|y c]; simpl; try discriminate.
  - auto.
  - intros H Hlen. injection H as -> H. injection Hlen as Hlen.
    destruct (IH c H Hlen) as [-> ->]. auto.
Qed.

Lemma IndexByteString_absent (c : ascii) (s : string) :
  (0 <=? IndexByteString s c) = false <-> ~ occurs c s.
Proof using Type.
  unfold IndexByteString. rewrite <- firstIndex_None.
  destruct (firstIndex c s) as [n|].
  - split; [|discriminate]. intros H. apply Z.leb_gt in H. lia.
  - split; reflexivity.
Qed.

Lemma at_0_absent (c : ascii) (s : string) :
  ~ occurs c s -> c <> Ascii.zero -> Ascii.eqb (at_ s 0) c = false.
Proof using Type.
  intros Hno Hc. apply Ascii.eqb_neq. destruct s as [|a s]; cbn.
  - congruence.
  - simpl in Hno. intros ->. tauto.
Qed.

Lemma len_app (s t : string) : len (s ++ t) = len s + len t.
Proof using Type. unfold len. rewrite length_app. lia. Qed.

Lemma sliceTo_app (s t : string) : sliceTo (s ++ t) (len s) = s.
Proof using Type. unfold sliceTo, len. rewrite Nat2Z.id. apply take_app. Qed.

Lemma sliceFrom_app (s t : string) : sliceFrom (s ++ t) (len s) = t.
Proof using Type. unfold sliceFrom, len. rewrite Nat2Z.id. apply drop_app. Qed.

Lemma sliceFrom_0 (s : string) : sliceFrom s 0 = s.
Proof using Type. reflexivity. Qed.

(** ** [net.SplitHostPort] accepts exactly the valid host:port pairs *)

Lemma checkBrackets_ok (hostport host : string) (i j k : Z) :
  ~ occurs "["%char (sliceFrom hostport j) ->
  ~ occurs "]"%char (sliceFrom hostport k) ->
  net.checkBrackets hostport host i j k
  = ((host, sliceFrom hostport (i + 1)), None).
Proof using Type.
  intros Hj Hk. unfold net.checkBrackets.
  apply IndexByteString_absent in Hj, Hk. now rewrite Hj, Hk.
Qed.

Lemma checkBrackets_inv (hostport host : string) (i j k : Z) (h p : string) :
  net.checkBrackets hostport host i j k = ((h, p), None) ->
  ~ occurs "["%char (sliceFrom hostport j)
  /\ ~ occurs "]"%char (sliceFrom hostport k)
  /\ h = host /\ p = sliceFrom hostport (i + 1).
Proof using Type.
  unfold net.checkBrackets, net.addrErr.
  destruct (0 <=? IndexByteString (sliceFrom hostport j) "[") eqn:Ej;
    [discriminate|].
  destruct (0 <=? IndexByteString (sliceFrom hostport k) "]") eqn:Ek;
    [discriminate|].
  apply IndexByteString_absent in Ej, Ek.
  intros H. injection H as <- <-. auto.
Qed.

Lemma len_nonneg (s : string) : 0 <= len s.
Proof using Type. unfold len. lia. Qed.

Lemma len_String (c : ascii) (s : string) : len (String c s) = len s + 1.
Proof using Type. unfold len. simpl String.length. lia. Qed.

Lemma sliceFrom_String (c : ascii) (s : string) (n : Z) :
  0 <= n -> sliceFrom (String c s) (n + 1) = sliceFrom s n.
Proof using Type.
  intros Hn. unfold sliceFrom.
  replace (Z.to_nat (n + 1)) with (S (Z.to_nat n)) by lia. reflexivity.
Qed.

Lemma drop_next (n : nat) (s t : string) (c : ascii) :
  drop n s = String c t -> drop (S n) s = t.
Proof using Type.
  revert s. induction n as [|n IH]; intros [|a s]; simpl; try discriminate.
  - intros H. injection H as _ ->. now destruct t.
  - apply IH.
Qed.

Lemma sliceFrom_next (s t : string) (c : ascii) (n : Z) :
  0 <= n -> sliceFrom s n = String c t -> sliceFrom s (n + 1) = t.
Proof using Type.
  intros Hn H. unfold sliceFrom in *.
  replace (Z.to_nat (n + 1)) with (S (Z.to_nat n)) by lia.
  now apply drop_next with (c := c).
Qed.

Lemma SplitHostPort_name (h p : string) :
  plain h -> plain p -> net.SplitHostPort (h ++ ":" ++ p) = ((h, p), None).
Proof using Type.
  intros (Hc & Hl & Hr) (Pc & Pl & Pr).
  change (h ++ ":" ++ p) with (h ++ String ":" p).
  assert (Hall : forall c, ~ occurs c h -> ~ occurs c p -> c <> ":"%char ->
                           ~ occurs c (h ++ String ":" p)).
  { intros c H1 H2 H3 H. apply occurs_app in H. simpl in H.
    destruct H as [H|[H|H]]; auto. }
  assert (Ei : LastIndexByteString (h ++ String ":" p) ":" = len h).
  { unfold LastIndexByteString. now rewrite lastIndex_app. }
  assert (Eport : sliceFrom (h ++ String ":" p) (len h + 1) = p).
  { change (h ++ String ":" p) with (h ++ ":" ++ p).
    rewrite <- app_assoc.
    replace (len h + 1) with (len (h ++ ":")) by (rewrite len_app; reflexivity).
    apply sliceFrom_app. }
  unfold net.SplitHostPort. rewrite Ei.
  destruct (Z.ltb_spec (len h) 0) as [Hneg|_];
    [pose proof (len_nonneg h); lia|].
  rewrite at_0_absent by (try apply Hall; auto; discriminate).
  rewrite sliceTo_app.
  replace (0 <=? IndexByteString h ":") with false
    by (symmetry; now apply IndexByteString_absent).
  rewrite checkBrackets_ok, Eport; [reflexivity | |];
    rewrite sliceFrom_0; apply Hall; auto; discriminate.
Qed.

Lemma SplitHostPort_literal (h p : string) :
  ~ occurs "["%char h -> ~ occurs "]"%char h -> plain p ->
  net.SplitHostPort ("[" ++ h ++ "]:" ++ p) = ((h, p), None).
Proof using Type.
  intros Hl Hr (Pc & Pl & Pr).
  change ("[" ++ h ++ "]:" ++ p)
    with (String "[" (h ++ String "]" (String ":" p))).
  set (hp := String "[" (h ++ String "]" (String ":" p))).
  assert (Ehp : hp = (String "[" h ++ "]") ++ String ":" p).
  { unfold hp. simpl. now rewrite app_assoc. }
  assert (Ei : LastIndexByteString hp ":" = len h + 2).
  { unfold LastIndexByteString. rewrite Ehp, lastIndex_app by assumption.
    fold (len (String "[" h ++ "]")). rewrite len_app, len_String.
    change (len "]") with 1. lia. }
  assert (Eend : IndexByteString hp "]" = len h + 1).
  { unfold IndexByteString.
    change hp with (String "[" h ++ String "]" (String ":" p)).
    rewrite firstIndex_app by (simpl; intros [H|H]; [discriminate | tauto]).
    fold (len (String "[" h)). apply len_String. }
  assert (Elen : len hp = len h + 3 + len p).
  { rewrite Ehp, !len_app, !len_String. change (len "]") with 1.
    change (len "") with 0. lia. }
  assert (Ehost : slice hp 1 (len h + 1) = h).
  { unfold slice, hp. change (Z.to_nat 1) with 1%nat. simpl drop.
    replace (Z.to_nat (len h + 1 - 1)) with (String.length h)
      by (unfold len; lia).
    apply take_app. }
  assert (Ej : sliceFrom hp 1 = h ++ String "]" (String ":" p)) by reflexivity.
  assert (Ek : sliceFrom hp (len h + 1 + 1) = String ":" p).
  { unfold hp. rewrite sliceFrom_String by (pose proof (len_nonneg h); lia).
    replace (len h + 1) with (len (h ++ "]")) by (rewrite len_app; reflexivity).
    replace (h ++ String "]" (String ":" p)) with ((h ++ "]") ++ String ":" p)
      by (now rewrite app_assoc).
    apply sliceFrom_app. }
  assert (Eport : sliceFrom hp (len h + 2 + 1) = p).
  { replace (len h + 2) with (len h + 1 + 1) by lia.
    apply sliceFrom_next with (c := ":"%char);
      [pose proof (len_nonneg h); lia | exact Ek]. }
  pose proof (len_nonneg h) as Hh. pose proof (len_nonneg p) as Hp.
  unfold net.SplitHostPort. rewrite Ei, Eend.
  destruct (Z.ltb_spec (len h + 2) 0); [lia|].
  change (Ascii.eqb (at_ hp 0) "[") with true. cbv iota.
  destruct (Z.ltb_spec (len h + 1) 0); [lia|].
  destruct (Z.eqb_spec (len h + 1 + 1) (len hp)); [lia|].
  destruct (Z.eqb_spec (len h + 1 + 1) (len h + 2)); [|lia].
  rewrite checkBrackets_ok, Ehost, Eport; [reflexivity | |].
  - rewrite Ej. intros Hin. apply occurs_app in Hin. simpl in Hin.
    destruct Hin as [Hin|[Hin|[Hin|Hin]]]; try discriminate; tauto.
  - rewrite Ek. simpl. intros [Hin|Hin]; [discriminate | tauto].
Qed.

Lemma SplitHostPort_complete (a host port : string) :
  HostPort a host port -> net.SplitHostPort a = ((host, port), None).
Proof using Type.
  intros [h p Hh Hp | h p Hl Hr Hp].
  - now apply SplitHostPort_name.
  - now apply SplitHostPort_literal.
Qed.

Lemma SplitHostPort_sound (a host port : string) :
  net.SplitHostPort a = ((host, port), None) -> HostPort a host port.
Proof using Type.
  intros Hsplit. pose proof Hsplit as Hrun. revert Hrun.
  unfold net.SplitHostPort, LastIndexByteString, net.addrErr.
  destruct (lastIndex ":" a) as [n|] eqn:En; [|discriminate].
  destruct (Z.ltb_spec (Z.of_nat n) 0) as [|_]; [lia|].
  destruct (lastIndex_Some _ _ _ En) as (pre & post & Ea & Hn & Pc).
  destruct (Ascii.eqb_spec (at_ a 0) "[") as [E0|N0].
  - (* the address opens a bracket *)
    unfold IndexByteString.
    destruct (firstIndex "]" a) as [e|] eqn:Ee; [|discriminate].
    destruct (Z.ltb_spec (Z.of_nat e) 0) as [|_]; [lia|].
    destruct (firstIndex_Some _ _ _ Ee) as (pre1 & post1 & Ea1 & He & Hr).
    destruct (Z.eqb_spec (Z.of_nat e + 1) (len a)); [discriminate|].
    destruct (Z.eqb_spec (Z.of_nat e + 1) (Z.of_nat n)) as [Een|];
      [|destruct (Ascii.eqb (at_ a (Z.of_nat e + 1)) ":"); discriminate].
    intros Hcb. apply checkBrackets_inv in Hcb.
    destruct Hcb as (Hj & Hk & _ & _).
    assert (Esplit : pre = pre1 ++ "]" /\ String ":" post = post1).
    { apply app_inv_length.
      - rewrite app_assoc. simpl. congruence.
      - rewrite length_app. simpl. lia. }
    destruct Esplit as [-> <-].
    destruct pre1 as [|b h].
    { exfalso. rewrite Ea1 in E0. discriminate E0. }
    assert (b = "["%char) as -> by (rewrite Ea1 in E0; exact E0).
    assert (Ea' : a = "[" ++ h ++ "]:" ++ post) by exact Ea1.
    assert (Hl : ~ occurs "["%char h /\ ~ occurs "["%char post).
    { rewrite Ea1 in Hj. change (sliceFrom _ 1) with (h ++ String "]" (String ":" post)) in Hj.
      split; intros H; apply Hj; apply occurs_app; simpl; tauto. }
    assert (Pr : ~ occurs "]"%char post).
    { replace (Z.of_nat e + 1) with (len (String "[" h ++ "]")) in Hk
        by (rewrite len_app; unfold len; simpl in He |- *; lia).
      replace a with ((String "[" h ++ "]") ++ String ":" post) in Hk
        by (rewrite app_assoc; symmetry; exact Ea1).
      rewrite sliceFrom_app in Hk. simpl in Hk. tauto. }
    assert (Hr' : ~ occurs "]"%char h) by (simpl in Hr; tauto).
    pose proof (SplitHostPort_literal h post (proj1 Hl) Hr'
                  (conj Pc (conj (proj2 Hl) Pr))) as Hgo.
    rewrite <- Ea', Hsplit in Hgo. injection Hgo as -> ->.
    rewrite Ea'. now constructor.
  - (* no bracket in front *)
    replace (sliceTo a (Z.of_nat n)) with pre
      by (rewrite Ea, <- Hn; symmetry; apply sliceTo_app).
    destruct (0 <=? IndexByteString pre ":") eqn:Hc; [discriminate|].
    apply IndexByteString_absent in Hc.
    intros Hcb. apply checkBrackets_inv in Hcb.
    destruct Hcb as (Hj & Hk & _ & _). rewrite sliceFrom_0 in Hj, Hk.
    rewrite Ea in Hj, Hk.
    assert (Hh : plain pre).
    { repeat split; [exact Hc | |]; intros H;
        [apply Hj | apply Hk]; apply occurs_app; tauto. }
    assert (Hp : plain post).
    { repeat split; [exact Pc | |]; intros H;
        [apply Hj | apply Hk]; apply occurs_app; simpl; tauto. }
    pose proof (SplitHostPort_name pre post Hh Hp) as Hgo.
    change (pre ++ ":" ++ post) with (pre ++ String ":" post) in Hgo.
    rewrite <- Ea, Hsplit in Hgo. injection Hgo as -> ->.
    rewrite Ea. now constructor.
Qed.

(** X13.  [net.SplitHostPort], as [Default] calls it, returns the host and
    the port without error exactly when the address is [host:port] with no
    colon or square bracket in either part, or [[host]:port] with no square
    bracket in the host and no colon or square bracket in the port. *)
Lemma SplitHostPort_spec (a host port : string) :
  net.SplitHostPort a = ((host, port), None) <-> HostPort a host port.
Proof using Type.
  split; [apply SplitHostPort_sound | apply SplitHostPort_complete].
Qed.

(** A failing [net.SplitHostPort] reports the address it was given. *)
Lemma SplitHostPort_error (a : string) (r : string * string) (e : error) :
  net.SplitHostPort a = (r, Some e) -> exists why, e = AddrError why a.
Proof using Type.
  unfold net.SplitHostPort, net.checkBrackets, net.addrErr.
  repeat match goal with
         | |- context [if ?b then _ else _] => destruct b
         end;
    intros H; try discriminate H; injection H as _ <-; eauto.
Qed.

(** ** [strconv.ParseInt] reads exactly the base-10 integers that fit *)

Lemma isDigit_bounds (c : ascii) :
  isDigit c = true <-> 48 <= byteVal c <= 57.
Proof using Type. unfold isDigit. rewrite andb_true_iff, !Z.leb_le. tauto. Qed.

Lemma digit_spec (c : ascii) :
  strconv.digit 10 c = if isDigit c then Some (byteVal c - 48) else None.
Proof using Type.
  unfold strconv.digit, isDigit.
  destruct ((48 <=? byteVal c) && (byteVal c <=? 57)) eqn:E.
  - apply andb_true_iff in E. rewrite !Z.leb_le in E.
    destruct (Z.leb_spec 10 (byteVal c - 48)); [lia | reflexivity].
  - destruct ((97 <=? strconv.lower (byteVal c))
              && (strconv.lower (byteVal c) <=? 122)) eqn:E'; [|reflexivity].
    apply andb_true_iff in E'. rewrite !Z.leb_le in E'.
    destruct (Z.leb_spec 10 (strconv.lower (byteVal c) - 97 + 10));
      [reflexivity | lia].
Qed.

Lemma digitsValue_mono (s : string) (acc v : Z) :
  0 <= acc -> digitsValue acc s = Some v -> acc <= v.
Proof using Type.
  revert acc. induction s as [|c s IH]; cbn [digitsValue]; intros acc Hacc H.
  - injection H as <-. lia.
  - destruct (isDigit c) eqn:Ed; [|discriminate].
    apply isDigit_bounds in Ed. apply IH in H; lia.
Qed.

Lemma parseLoop_ok (s0 s : string) (n v : Z) :
  0 <= n <= maxVal32 ->
  strconv.parseLoop s0 10 cutoff64 maxVal32 s n = (v, None)
  <-> digitsValue n s = Some v /\ v <= maxVal32.
Proof using Type.
  revert n. induction s as [|c s IH]; intros n Hn;
    cbn [strconv.parseLoop digitsValue].
  - split.
    + intros H. injection H as <-. split; [reflexivity | lia].
    + intros [H _]. injection H as <-. reflexivity.
  - rewrite digit_spec. destruct (isDigit c) eqn:Ed.
    2:{ split; [discriminate | intros [H _]; discriminate]. }
    apply isDigit_bounds in Ed.
    assert (Hmax : maxVal32 = 4294967295) by reflexivity.
    assert (Hcut : cutoff64 = 1844674407370955162) by reflexivity.
    destruct (Z.leb_spec cutoff64 n); [lia|].
    assert (E1 : strconv.uint64 (n * 10) = n * 10).
    { unfold strconv.uint64. apply Z.mod_small. lia. }
    rewrite E1.
    assert (E2 : strconv.uint64 (n * 10 + (byteVal c - 48))
                 = 10 * n + (byteVal c - 48)).
    { unfold strconv.uint64. rewrite Z.mod_small; lia. }
    rewrite E2.
    destruct (Z.ltb_spec (10 * n + (byteVal c - 48)) (n * 10)); [lia|].
    destruct (Z.ltb_spec maxVal32 (10 * n + (byteVal c - 48))) as [Hover|Hfit];
      simpl orb; cbv iota.
    + split; [discriminate|]. intros [Hd Hv].
      apply digitsValue_mono in Hd; lia.
    + apply IH. lia.
Qed.

Lemma parseLoop_error (s0 s : string) (base cutoff maxVal n v : Z) (e : error) :
  strconv.parseLoop s0 base cutoff maxVal s n = (v, Some e) ->
  strconv.isRange e = false \/ v = maxVal.
Proof using Type.
  revert n. induction s as [|c s IH]; intros n; simpl; [discriminate|].
  destruct (strconv.digit base c) as [d|].
  - destruct (cutoff <=? n).
    + intros H. injection H as <- _. now right.
    + destruct ((_ <? _) || (_ <? _)).
      * intros H. injection H as <- _. now right.
      * apply IH.
  - intros H. injection H as _ <-. now left.
Qed.

Lemma ParseUint_ok (s : string) (v : Z) :
  strconv.ParseUint s 10 32 = (v, None)
  <-> s <> "" /\ digitsValue 0 s = Some v /\ v <= maxVal32.
Proof using Type.
  unfold strconv.ParseUint. destruct (String.eqb_spec s "") as [->|Hne].
  - split; [discriminate | tauto].
  - fold cutoff64. fold maxVal32. rewrite parseLoop_ok by (vm_compute; split; discriminate).
    tauto.
Qed.

Lemma ParseUint_error (s : string) (v : Z) (e : error) :
  strconv.ParseUint s 10 32 = (v, Some e) ->
  strconv.isRange e = false \/ v = maxVal32.
Proof using Type.
  unfold strconv.ParseUint. destruct (String.eqb s "").
  - intros H. injection H as _ <-. now left.
  - apply parseLoop_error.
Qed.

(** [ParseInt(s, 10, 32)] once the sign is picked off: [neg] and the
    remaining digits [s]. *)
Lemma ParseInt_unsigned (s0 s : string) (neg : bool) (n : Z) :
  (let '(un, err) := strconv.ParseUint s 10 32 in
   if match err with Some e => negb (strconv.isRange e) | None => false end
   then (0, Some (strconv.syntaxError strconv.fnParseInt s0))
   else
     let cutoff := strconv.uint64 (Z.shiftl 1 (32 - 1)) in
     if negb neg && (cutoff <=? un)
     then (cutoff - 1, Some (strconv.rangeError strconv.fnParseInt s0))
     else if neg && (cutoff <? un)
          then (- cutoff, Some (strconv.rangeError strconv.fnParseInt s0))
          else ((if neg then - un else un), None)) = (n, None)
  <-> s <> ""
      /\ exists un, digitsValue 0 s = Some un
                    /\ n = (if neg then - un else un) /\ fitsInt32 n.
Proof using Type.
  change (strconv.uint64 (Z.shiftl 1 (32 - 1))) with 2147483648.
  unfold fitsInt32. change (2 ^ 31) with 2147483648.
  destruct (strconv.ParseUint s 10 32) as [un [e|]] eqn:E.
  - (* ParseUint failed *)
    assert (Hno : ~ (s <> "" /\ exists v, digitsValue 0 s = Some v /\ v <= maxVal32)).
    { intros (Hne & v & Hv & Hle).
      assert (strconv.ParseUint s 10 32 = (v, None)) by (apply ParseUint_ok; auto).
      congruence. }
    split.
    + intros Hrun. exfalso.
      destruct (ParseUint_error _ _ _ E) as [Hr| ->].
      * rewrite Hr in Hrun. discriminate.
      * destruct (strconv.isRange e); [|discriminate].
        change maxVal32 with 4294967295 in Hrun.
        destruct neg; simpl in Hrun; discriminate.
    + intros (Hne & v & Hv & -> & Hfit). exfalso. apply Hno. split; [exact Hne|].
      exists v. split; [exact Hv|]. change maxVal32 with 4294967295.
      destruct neg; lia.
  - apply ParseUint_ok in E. destruct E as (Hne & Hv & Hle).
    assert (0 <= un) by (apply digitsValue_mono in Hv; lia).
    split.
    + intros Hrun. split; [exact Hne|]. exists un. split; [exact Hv|].
      destruct neg; simpl in Hrun.
      * destruct (Z.ltb_spec 2147483648 un); [discriminate|].
        injection Hrun as <-. lia.
      * destruct (Z.leb_spec 2147483648 un); [discriminate|].
        injection Hrun as <-. lia.
    + intros (_ & v & Hv' & -> & Hfit). rewrite Hv in Hv'. injection Hv' as <-.
      destruct neg; simpl.
      * destruct (Z.ltb_spec 2147483648 un); [lia | reflexivity].
      * destruct (Z.leb_spec 2147483648 un); [lia | reflexivity].
Qed.

Lemma digitsValue_sign (c : ascii) (s : string) (acc : Z) :
  c = "+"%char \/ c = "-"%char -> digitsValue acc (String c s) = None.
Proof using Type. intros [-> | ->]; reflexivity. Qed.

(** [strconv.ParseInt(s, 10, 32)] succeeds with [n] exactly when [s] denotes
    [n] in base 10 and [n] fits a signed 32-bit integer. *)
Lemma ParseInt_spec (s : string) (n : Z) :
  strconv.ParseInt s 10 32 = (n, None) <-> base10 s = Some n /\ fitsInt32 n.
Proof using Type.
  destruct s as [|c r].
  - simpl. split; [discriminate | intros [H _]; discriminate].
  - unfold strconv.ParseInt, base10.
    change (String.eqb (String c r) "") with false. cbv iota.
    change (at_ (String c r) 0) with c.
    change (sliceFrom (String c r) 1) with r.
    destruct (Ascii.eqb_spec c "+") as [->|Hplus];
      [|destruct (Ascii.eqb_spec c "-") as [->|Hminus]].
    + rewrite (ParseInt_unsigned _ r false n). split.
      * intros (Hne & un & Hv & -> & Hfit). destruct r; [congruence | auto].
      * intros [H Hfit]. destruct r as [|d r]; [discriminate|].
        split; [discriminate | eauto].
    + rewrite (ParseInt_unsigned _ r true n). split.
      * intros (Hne & un & Hv & -> & Hfit). destruct r; [congruence|].
        rewrite Hv. auto.
      * intros [H Hfit]. destruct r as [|d r]; [discriminate|].
        split; [discriminate|].
        destruct (digitsValue 0 (String d r)) as [un|]; [|discriminate].
        injection H as <-. eauto.
    + rewrite (ParseInt_unsigned _ (String c r) false n). split.
      * intros (_ & un & Hv & -> & Hfit). auto.
      * intros [H Hfit]. split; [discriminate | eauto].
Qed.

(** A failing [strconv.ParseInt] reports a [NumError] of [ParseInt]. *)
Lemma ParseInt_error (s : string) (v : Z) (e : error) :
  strconv.ParseInt s 10 32 = (v, Some e) ->
  exists cause, e = NumError "ParseInt" s cause.
Proof using Type.
  unfold strconv.ParseInt, strconv.syntaxError, strconv.rangeError.
  destruct (String.eqb s "").
  - intros H. injection H as _ <-. eauto.
  - destruct (if Ascii.eqb (at_ s 0) "+" then (false, sliceFrom s 1)
              else if Ascii.eqb (at_ s 0) "-" then (true, sliceFrom s 1)
                   else (false, s)) as [neg s'].
    destruct (strconv.ParseUint s' 10 32) as [un err].
    repeat match goal with
           | |- context [if ?b then _ else _] => destruct b
           end;
      intros H; try discriminate H; injection H as _ <-; eauto.
Qed.

Lemma int32_fits (z : Z) : fitsInt32 z -> int32 z = z.
Proof using Type.
  unfold fitsInt32, int32. intros H.
  rewrite Z.mod_small; lia.
Qed.

(** ** The migration block of [Default] *)

Lemma prometheusOf_set (cluster : TemporalCluster) (prom : PrometheusSpec)
    (address : string) (port : option Z) :
  prometheusOf cluster = Some prom ->
  prometheusOf (set_ListenPort port (set_ListenAddress address cluster))
  = Some (mkPrometheusSpec address port).
Proof using Type.
  unfold prometheusOf, set_ListenPort, set_ListenAddress, updatePrometheus.
  cbn. destruct (Metrics (Spec cluster)) as [m|]; [|discriminate].
  cbn. now intros ->.
Qed.

Lemma needsMigration_metrics (c c' : TemporalCluster) (address : string) :
  Metrics (Spec c') = Metrics (Spec c) ->
  needsMigration c address -> needsMigration c' address.
Proof using Type.
  unfold needsMigration, prometheusOf. now intros ->.
Qed.

Lemma migrate_success (cluster : TemporalCluster) (address host port : string) (n : Z) :
  needsMigration cluster address ->
  HostPort address host port -> base10 port = Some n -> fitsInt32 n ->
  migrateListenAddress cluster
  = (set_ListenPort (Some n) (set_ListenAddress "" cluster), None).
Proof using Type.
  intros (Hon & prom & Hprom & Haddr & Hne & Hport) Hsplit Hnum Hfit.
  unfold migrateListenAddress. rewrite Hon, Hprom, Haddr, Hport.
  apply String.eqb_neq in Hne. rewrite Hne. cbn [negb andb].
  apply SplitHostPort_complete in Hsplit. rewrite Hsplit.
  assert (Hparse : strconv.ParseInt port 10 32 = (n, None))
    by (apply ParseInt_spec; auto).
  rewrite Hparse. now rewrite int32_fits.
Qed.

Lemma migrate_failure (cluster : TemporalCluster) (address : string) :
  needsMigration cluster address ->
  ~ (exists host port n,
        HostPort address host port /\ base10 port = Some n /\ fitsInt32 n) ->
  exists e,
    migrateListenAddress cluster = (cluster, Some e)
    /\ malformedAddress address e.
Proof using Type.
  intros (Hon & prom & Hprom & Haddr & Hne & Hport) Hbad.
  unfold migrateListenAddress. rewrite Hon, Hprom, Haddr, Hport.
  apply String.eqb_neq in Hne. rewrite Hne. cbn [negb andb].
  destruct (net.SplitHostPort address) as [[host port] [e|]] eqn:Es.
  - destruct (SplitHostPort_error _ _ _ Es) as [why ->].
    eexists. split; [reflexivity|]. left. eauto.
  - destruct (strconv.ParseInt port 10 32) as [n [e|]] eqn:Ep.
    + destruct (ParseInt_error _ _ _ Ep) as [cause ->].
      eexists. split; [reflexivity|]. right. eauto.
    + exfalso. apply Hbad. exists host, port, n.
      apply SplitHostPort_sound in Es. apply ParseInt_spec in Ep.
      destruct Ep. auto.
Qed.

Lemma migrate_skip (cluster : TemporalCluster) :
  (forall address, ~ needsMigration cluster address) ->
  migrateListenAddress cluster = (cluster, None).
Proof using Type.
  intros Hno. unfold migrateListenAddress.
  destruct (MetricsEnabled (Metrics (Spec cluster))) eqn:Hon; [|reflexivity].
  destruct (prometheusOf cluster) as [prom|] eqn:Hprom; [|reflexivity].
  destruct (String.eqb_spec (ListenAddress prom) "") as [|Hne]; [reflexivity|].
  destruct (ListenPort prom) as [port|] eqn:Hport; [reflexivity|].
  exfalso. apply (Hno (ListenAddress prom)). split; [exact Hon|].
  exists prom. auto.
Qed.

(** What a successful run of the block leaves behind needs no migration. *)
Lemma migrate_settles (cluster cluster' : TemporalCluster) :
  migrateListenAddress cluster = (cluster', None) ->
  forall address, ~ needsMigration cluster' address.
Proof using Type.
  unfold migrateListenAddress.
  destruct (MetricsEnabled (Metrics (Spec cluster))) eqn:Hon.
  2:{ intros H. injection H as <-. intros a (Hon' & _). congruence. }
  destruct (prometheusOf cluster) as [prom|] eqn:Hprom.
  2:{ intros H. injection H as <-. intros a (_ & p & Hp & _). congruence. }
  destruct (String.eqb_spec (ListenAddress prom) "") as [Hempty|Hne].
  { intros H. injection H as <-. intros a (_ & p & Hp & Ha & Hna & _).
    congruence. }
  destruct (ListenPort prom) as [port|] eqn:Hport.
  { intros H. injection H as <-. intros a (_ & p & Hp & _ & _ & Hnone).
    congruence. }
  cbn [negb andb].
  destruct (net.SplitHostPort (ListenAddress prom)) as [[host port] [e|]];
    [discriminate|].
  destruct (strconv.ParseInt port 10 32) as [n [e|]]; [discriminate|].
  intros H. injection H as <-. intros a (_ & p & Hp & Ha & Hna & _).
  rewrite (prometheusOf_set _ _ _ _ Hprom) in Hp. injection Hp as <-.
  simpl in Ha. congruence.
Qed.

(** The block keeps the two listen fields apart when they were apart. *)
Lemma migrate_exclusive (cluster cluster' : TemporalCluster) :
  mutuallyExclusive cluster ->
  migrateListenAddress cluster = (cluster', None) ->
  mutuallyExclusive cluster'.
Proof using Type.
  intros Hex. unfold migrateListenAddress.
  destruct (MetricsEnabled (Metrics (Spec cluster)));
    [|intros H; injection H as <-; exact Hex].
  destruct (prometheusOf cluster) as [prom|] eqn:Hprom;
    [|intros H; injection H as <-; exact Hex].
  destruct (negb (String.eqb (ListenAddress prom) "")
            && match ListenPort prom with None => true | Some _ => false end);
    [|intros H; injection H as <-; exact Hex].
  destruct (net.SplitHostPort (ListenAddress prom)) as [[host port] [e|]];
    [discriminate|].
  destruct (strconv.ParseInt port 10 32) as [n [e|]]; [discriminate|].
  intros H. injection H as <-. intros p Hp.
  rewrite (prometheusOf_set _ _ _ _ Hprom) in Hp. injection Hp as <-.
  simpl. intros [Hset _]. now apply Hset.
Qed.

(** ** [Default] *)

(** With both listen fields set the migration block does nothing. *)
Lemma migrate_bothSet (cluster : TemporalCluster) :
  bothSet cluster -> migrateListenAddress cluster = (cluster, None).
Proof using Type.
  intros (prom & Hprom & _ & Hport). apply migrate_skip.
  intros address (_ & prom' & Hprom' & _ & _ & Hnone).
  rewrite Hprom in Hprom'. injection Hprom' as <-. now apply Hport.
Qed.

(** C3, as amended.  For every spec on which [Default] returns without
    error: the spec that [Default] hands to the bulk defaulting, its last
    step, has [listenAddress] and [listenPort] not both set if they were not
    both set on entry, and is the submitted spec itself, both fields still
    set, if both were set on entry; and provided the bulk defaulting leaves
    the metrics block as it is, the same holds of the spec after [Default]:
    not both set if not both set on entry, both set if both set on entry. *)
Theorem Default_keeps_listen_fields_apart
    (w : TemporalClusterWebhook) (cluster cluster' : TemporalCluster) :
  Default w (ObjTemporalCluster cluster) = (ObjTemporalCluster cluster', None) ->
  exists handed,
    cluster' = cluster_Default handed
    /\ (mutuallyExclusive cluster -> mutuallyExclusive handed)
    /\ (bothSet cluster -> handed = cluster)
    /\ (leavesMetrics cluster_Default ->
        (mutuallyExclusive cluster -> mutuallyExclusive cluster')
        /\ (bothSet cluster -> bothSet cluster')).
Proof using Type.
  unfold Default. cbn [getClusterFromRequest].
  destruct (migrateListenAddress cluster) as [handed [e|]] eqn:Hm;
    [discriminate|].
  intros H. injection H as <-. exists handed.
  assert (Hboth : bothSet cluster -> handed = cluster).
  { intros Hb. rewrite (migrate_bothSet _ Hb) in Hm. now injection Hm. }
  split; [reflexivity|].
  split; [intros Hex; exact (migrate_exclusive _ _ Hex Hm)|].
  split; [exact Hboth|].
  intros Hkeep. split.
  - intros Hex. pose proof (migrate_exclusive _ _ Hex Hm) as Hex'.
    unfold mutuallyExclusive, prometheusOf in *. now rewrite Hkeep.
  - intros Hb. rewrite (Hboth Hb).
    unfold bothSet, prometheusOf in *. now rewrite Hkeep.
Qed.

(** C5.  For every spec with metrics enabled, a Prometheus sub-config
    present, a non-empty legacy [listenAddress] that is a valid host:port
    pair whose port is a base-10 integer fitting a signed 32-bit integer, and
    an unset [listenPort], [Default] succeeds, and afterwards [listenAddress]
    is the empty string and [listenPort] is the port as an integer (the bulk
    defaulting leaving the metrics block alone). *)
Theorem Default_migrates_listenAddress
    (w : TemporalClusterWebhook) (cluster : TemporalCluster)
    (address host port : string) (n : Z) :
  leavesMetrics cluster_Default ->
  needsMigration cluster address ->
  HostPort address host port ->
  base10 port = Some n ->
  fitsInt32 n ->
  exists cluster',
    Default w (ObjTemporalCluster cluster) = (ObjTemporalCluster cluster', None)
    /\ prometheusOf cluster' = Some (mkPrometheusSpec "" (Some n)).
Proof using Type.
  intros Hkeep Hneeds Hsplit Hnum Hfit.
  unfold Default. cbn [getClusterFromRequest].
  rewrite (migrate_success _ _ _ _ _ Hneeds Hsplit Hnum Hfit).
  eexists. split; [reflexivity|].
  destruct Hneeds as (_ & prom & Hprom & _).
  unfold prometheusOf at 1. rewrite Hkeep.
  exact (prometheusOf_set _ _ _ _ Hprom).
Qed.

(** C6.  For every spec whose legacy [listenAddress] is subject to migration
    but is not a valid host:port pair, or whose port segment is not a base-10
    integer fitting a signed 32-bit range, [Default] fails with a
    malformed-address error and leaves the spec unchanged. *)
Theorem Default_malformed_address
    (w : TemporalClusterWebhook) (cluster : TemporalCluster) (address : string) :
  needsMigration cluster address ->
  (forall host port, ~ HostPort address host port)
  \/ (exists host port,
         HostPort address host port
         /\ forall n, ~ (base10 port = Some n /\ fitsInt32 n)) ->
  exists e,
    Default w (ObjTemporalCluster cluster) = (ObjTemporalCluster cluster, Some e)
    /\ malformedAddress address e.
Proof using Type.
  intros Hneeds Hbad.
  destruct (migrate_failure cluster address Hneeds) as (e & Hm & He).
  - intros (host & port & n & Hsplit & Hnum & Hfit).
    destruct Hbad as [Hbad | (host' & port' & Hsplit' & Hbad)].
    + exact (Hbad _ _ Hsplit).
    + apply SplitHostPort_complete in Hsplit, Hsplit'.
      rewrite Hsplit in Hsplit'. injection Hsplit' as <- <-.
      exact (Hbad n (conj Hnum Hfit)).
  - exists e. split; [|exact He].
    unfold Default. cbn [getClusterFromRequest]. now rewrite Hm.
Qed.

(** A second [Default] changes nothing, once the bulk defaulting neither
    makes a cluster subject to migration nor finds more to fill the second
    time. *)
Lemma Default_twice (w : TemporalClusterWebhook) (obj obj' : Object) :
  (forall c address,
      needsMigration (cluster_Default c) address -> needsMigration c address) ->
  fillsOnce cluster_Default ->
  Default w obj = (obj', None) ->
  Default w obj' = (obj', None).
Proof using Type.
  intros Harm Honce. destruct obj as [cluster|goType]; [|discriminate].
  unfold Default at 1. cbn [getClusterFromRequest].
  destruct (migrateListenAddress cluster) as [migrated [e|]] eqn:Hm;
    [discriminate|].
  intros H. injection H as <-.
  unfold Default. cbn [getClusterFromRequest].
  rewrite migrate_skip.
  - now rewrite Honce.
  - intros address Hneeds.
    exact (migrate_settles _ _ Hm address (Harm _ _ Hneeds)).
Qed.

(** C10.  During the migration of the legacy address, any port segment that
    is a base-10 integer fitting a signed 32-bit range is accepted and stored
    verbatim in [listenPort]; no check against the TCP port range is made:
    the ports -1 and 70000 are stored as they are. *)
Theorem Default_port_unchecked :
  leavesMetrics cluster_Default ->
  (forall (w : TemporalClusterWebhook) (cluster : TemporalCluster)
          (address host port : string) (n : Z),
      needsMigration cluster address ->
      HostPort address host port ->
      base10 port = Some n -> fitsInt32 n ->
      exists cluster' prom',
        Default w (ObjTemporalCluster cluster)
        = (ObjTemporalCluster cluster', None)
        /\ prometheusOf cluster' = Some prom'
        /\ ListenPort prom' = Some n)
  /\ (forall w v,
         exists cluster',
           Default w (ObjTemporalCluster
                        (Sample.cluster v (Sample.prometheus "0.0.0.0:-1" None)
                           None None))
           = (ObjTemporalCluster cluster', None)
           /\ prometheusOf cluster' = Some (mkPrometheusSpec "" (Some (-1))))
  /\ (forall w v,
         exists cluster',
           Default w (ObjTemporalCluster
                        (Sample.cluster v (Sample.prometheus "0.0.0.0:70000" None)
                           None None))
           = (ObjTemporalCluster cluster', None)
           /\ prometheusOf cluster' = Some (mkPrometheusSpec "" (Some 70000))).
Proof using Type.
  intros Hkeep.
  assert (Hrun : forall (w : TemporalClusterWebhook) cluster prom n,
             prometheusOf cluster = Some prom ->
             migrateListenAddress cluster
             = (set_ListenPort (Some n) (set_ListenAddress "" cluster), None) ->
             exists cluster',
               Default w (ObjTemporalCluster cluster)
               = (ObjTemporalCluster cluster', None)
               /\ prometheusOf cluster' = Some (mkPrometheusSpec "" (Some n))).
  { intros w cluster prom n Hprom Hm. unfold Default.
    cbn [getClusterFromRequest]. rewrite Hm. eexists. split; [reflexivity|].
    unfold prometheusOf at 1. rewrite Hkeep.
    exact (prometheusOf_set _ _ _ _ Hprom). }
  split; [|split].
  - intros w cluster address host port n Hneeds Hsplit Hnum Hfit.
    pose proof (migrate_success _ _ _ _ _ Hneeds Hsplit Hnum Hfit) as Hm.
    destruct Hneeds as (_ & prom & Hprom & _).
    destruct (Hrun w cluster prom n Hprom Hm) as (cluster' & Hd & Hp).
    exists cluster', (mkPrometheusSpec "" (Some n)). auto.
  - intros w v. eapply Hrun; reflexivity.
  - intros w v. eapply Hrun; reflexivity.
Qed.

(** ** The shared rule set *)

Lemma validateCluster_rules (w : TemporalClusterWebhook) (cluster : TemporalCluster) :
  validateCluster w cluster
  = ((if MTLSWithCertManagerEnabled cluster && negb (CertManager (AvailableAPIs_ w))
      then [mTLSProviderError cluster] else [])
     ++ (if version.Check SupportedVersionsRange (version.Semver (Version (Spec cluster)))
         then [] else [unsupportedVersionError])
     ++ (if version.GreaterOrEqual (Version (Spec cluster)) version.V1_18_0
            && elasticsearchV6 cluster
         then [elasticsearchV6Error] else []))%list.
Proof using Type.
  unfold validateCluster, version.Validate, append.
  destruct (MTLSWithCertManagerEnabled cluster && negb (CertManager (AvailableAPIs_ w)));
    destruct (version.Check SupportedVersionsRange (version.Semver (Version (Spec cluster))));
    destruct (version.GreaterOrEqual (Version (Spec cluster)) version.V1_18_0
              && elasticsearchV6 cluster);
    reflexivity.
Qed.

Lemma aggregate_nonempty (w : TemporalClusterWebhook) (cluster : TemporalCluster)
    (errs : ErrorList) :
  errs <> [] ->
  aggregateClusterErrors w cluster errs
  = Some (NewInvalid (GroupVersionKind_GroupKind cluster) (GetName cluster) errs).
Proof using Type. destruct errs; [congruence | reflexivity]. Qed.

Lemma GreaterOrEqual_1_18_0 (v : version.Version) :
  version.GreaterOrEqual v version.V1_18_0 = true <-> atLeast_1_18_0 v.
Proof using Type.
  unfold version.GreaterOrEqual, atLeast_1_18_0, version.compare.
  destruct (version.Semver v) as [[major minor patch]|]; cbn.
  2:{ split; [discriminate | intros (sv & H & _); discriminate]. }
  split.
  - intros H. eexists. split; [reflexivity|]. cbn.
    destruct (N.compare_spec major 1); [subst | discriminate | lia].
    destruct (N.compare_spec minor 18); [lia | discriminate | lia].
  - intros (sv & Hsv & H). injection Hsv as <-. cbn in H.
    destruct (N.compare_spec major 1); [subst | lia | reflexivity].
    destruct (N.compare_spec minor 18); [subst | lia | reflexivity].
    now destruct patch.
Qed.

Lemma elasticsearchV6_spec (cluster : TemporalCluster) :
  elasticsearchV6 cluster = true <-> elasticsearchVersion cluster "v6".
Proof using Type.
  unfold elasticsearchV6, elasticsearchVersion.
  destruct (AdvancedVisibilityStore (Persistence (Spec cluster))) as [store|].
  2:{ split; [discriminate | intros (? & ? & H & _); discriminate]. }
  destruct (Elasticsearch store) as [es|] eqn:Ees.
  2:{ split; [discriminate|]. intros (? & ? & H & H' & _).
      injection H as <-. congruence. }
  rewrite String.eqb_eq. split.
  - intros H. exists store, es. auto.
  - intros (? & ? & H & H' & H''). injection H as <-. congruence.
Qed.

Lemma Check_UpgradeConstraint (old : version.SemVer) (v : version.Version)
    (c : version.Constraints) :
  version.UpgradeConstraint (version.mkVersion (Some old)) = inl c ->
  version.Check c (version.Semver v) = true <-> sequentialUpgrade old v.
Proof using Type.
  unfold version.UpgradeConstraint, sequentialUpgrade. cbn.
  intros H. injection H as <-.
  destruct (version.Semver v) as [candidate|]; cbn.
  - rewrite andb_true_iff, !N.eqb_eq. split.
    + intros [Hmajor Hminor]. exists candidate. auto.
    + intros (? & H & Hmajor & Hminor). injection H as <-. auto.
  - split; [discriminate | intros (? & H & _); discriminate].
Qed.

Lemma sequentialUpgradeError_fresh (w : TemporalClusterWebhook)
    (cluster : TemporalCluster) :
  ~ In sequentialUpgradeError (validateCluster w cluster).
Proof using Type.
  rewrite validateCluster_rules. intros H.
  repeat (apply in_app_or in H; destruct H as [H|H]);
    match type of H with
    | In _ (if ?b then _ else _) => destruct b
    end;
    simpl in H; try contradiction; destruct H as [H|[]]; discriminate H.
Qed.

(** ** [ValidateCreate] and [ValidateUpdate] *)

(** C2, as amended.  For every spec that requests mTLS with the cert-manager
    provider: when the capability snapshot reports cert-manager unavailable,
    validation appends an error of kind Invalid (not Forbidden) at the field
    path spec.mTLS.provider, carrying the provider as the bad value; when
    cert-manager is available, no error sits at that field path. *)
Theorem validateCluster_mTLS_gate
    (w : TemporalClusterWebhook) (cluster : TemporalCluster) :
  MTLSWithCertManagerEnabled cluster = true ->
  (CertManager (AvailableAPIs_ w) = false ->
   exists rest,
     validateCluster w cluster
     = mkFieldError ErrorTypeInvalid "spec.mTLS.provider" CertManagerMTLSProvider
         "Can't use cert-manager as mTLS provider as it's not available in the cluster"
       :: rest
     /\ ~ hasErrorAt "spec.mTLS.provider" rest)
  /\ (CertManager (AvailableAPIs_ w) = true ->
      ~ hasErrorAt "spec.mTLS.provider" (validateCluster w cluster)).
Proof using Type.
  intros Hmtls.
  assert (Hrest : forall b1 b2 : bool,
             ~ hasErrorAt "spec.mTLS.provider"
                 ((if b1 then @nil FieldError else [unsupportedVersionError])
                  ++ (if b2 then [elasticsearchV6Error] else []))%list).
  { intros b1 b2 (e & Hin & Hfield). apply in_app_or in Hin.
    destruct b1, b2; simpl in Hin;
      split_members;
      subst; discriminate. }
  rewrite validateCluster_rules, Hmtls. split; intros ->; cbn [negb andb].
  - eexists. split; [|apply Hrest].
    unfold mTLSProviderError, field_Invalid. cbn.
    unfold MTLSWithCertManagerEnabled in Hmtls.
    destruct (MTLS (Spec cluster)) as [m|]; [|discriminate].
    apply String.eqb_eq in Hmtls. now rewrite Hmtls.
  - apply Hrest.
Qed.

(** C4.  For every spec whose version lies outside the configured supported
    range, [ValidateCreate] returns a rejection whose ErrorList is non-empty
    and contains a Forbidden entry at the field path spec.version, with a
    message that describes the supported range. *)
Theorem ValidateCreate_unsupported_version
    (w : TemporalClusterWebhook) (cluster : TemporalCluster) :
  version.Check SupportedVersionsRange (version.Semver (Version (Spec cluster)))
  = false ->
  exists errs,
    ValidateCreate w (ObjTemporalCluster cluster)
    = Some (NewInvalid (GroupVersionKind_GroupKind cluster) (GetName cluster) errs)
    /\ errs <> []
    /\ In (mkFieldError ErrorTypeForbidden "spec.version" ""
             ("Unsupported temporal version (supported: "
                ++ SupportedVersionsRange_String ++ ")"))
          errs.
Proof using Type.
  intros Hout. exists (validateCluster w cluster).
  assert (Hin : In unsupportedVersionError (validateCluster w cluster)).
  { rewrite validateCluster_rules, Hout.
    apply in_or_app. right. apply in_or_app. left. now left. }
  assert (Hne : validateCluster w cluster <> []).
  { intros E. rewrite E in Hin. exact Hin. }
  unfold ValidateCreate. cbn [getClusterFromRequest].
  rewrite aggregate_nonempty by exact Hne. auto.
Qed.

(** C8.  For every spec with an advanced visibility store configured with
    Elasticsearch version "v6": when the version is at least the 1.18.0
    milestone, validation appends a Forbidden error at the field path
    spec.persistence.advancedVisibilityStore.elasticsearch.version; when the
    version is below the milestone, as 1.17.9 is, no error sits at that
    path. *)
Theorem validateCluster_elasticsearch_v6
    (w : TemporalClusterWebhook) (cluster : TemporalCluster) :
  elasticsearchVersion cluster "v6" ->
  (atLeast_1_18_0 (Version (Spec cluster)) ->
   In (mkFieldError ErrorTypeForbidden
         "spec.persistence.advancedVisibilityStore.elasticsearch.version" ""
         "temporal cluster version >= 1.18.0 doesn't support ElasticSearch v6")
      (validateCluster w cluster))
  /\ (~ atLeast_1_18_0 (Version (Spec cluster)) ->
      ~ hasErrorAt "spec.persistence.advancedVisibilityStore.elasticsearch.version"
          (validateCluster w cluster))
  /\ atLeast_1_18_0 (version.ofTriple 1 18 0)
  /\ ~ atLeast_1_18_0 (version.ofTriple 1 17 9).
Proof using Type.
  intros Hes. apply elasticsearchV6_spec in Hes.
  rewrite validateCluster_rules, Hes, andb_true_r.
  repeat split.
  - intros Hge. apply GreaterOrEqual_1_18_0 in Hge. rewrite Hge.
    apply in_or_app. right. apply in_or_app. right. now left.
  - intros Hlt (e & Hin & Hfield).
    destruct (version.GreaterOrEqual (Version (Spec cluster)) version.V1_18_0)
      eqn:Hge.
    { apply Hlt. now apply GreaterOrEqual_1_18_0. }
    repeat (apply in_app_or in Hin; destruct Hin as [Hin|Hin]);
      try match type of Hin with
          | In _ (if ?b then _ else _) => destruct b
          end;
      simpl in Hin;
      split_members;
      subst; discriminate.
  - exists (version.mkSemVer 1 18 0). split; [reflexivity|]. cbn. lia.
  - intros (sv & Hsv & Hge). injection Hsv as <-. cbn in Hge. lia.
Qed.

(** C1.  For every update request where the old spec's version parses into
    (major, minor, patch), [ValidateUpdate] appends the Forbidden error of the
    sequential-upgrade rule, at the field path spec.version, to the errors of
    the shared rules if and only if the new version fails the predicate
    candidate.major = old.major and candidate.minor = old.minor + 1 (patch
    unconstrained); in particular a downgrade, a re-save of the same version
    and a skip of more than one minor version are rejected by this rule. *)
Theorem ValidateUpdate_sequential_upgrade
    (w : TemporalClusterWebhook) (oldCluster newCluster : TemporalCluster)
    (old : version.SemVer) :
  version.Semver (Version (Spec oldCluster)) = Some old ->
  exists errs,
    ValidateUpdate w (ObjTemporalCluster oldCluster) (ObjTemporalCluster newCluster)
    = aggregateClusterErrors w newCluster errs
    /\ (sequentialUpgrade old (Version (Spec newCluster)) ->
        errs = validateCluster w newCluster)
    /\ (~ sequentialUpgrade old (Version (Spec newCluster)) ->
        errs = (validateCluster w newCluster
                  ++ [mkFieldError ErrorTypeForbidden "spec.version" ""
                        "Unauthorized version upgrade. Only sequential version upgrades are allowed (from v1.n.x to v1.n+1.x)"])%list)
    /\ (In sequentialUpgradeError errs
        <-> ~ sequentialUpgrade old (Version (Spec newCluster)))
    /\ (forall candidate,
           version.Semver (Version (Spec newCluster)) = Some candidate ->
           version.compare candidate old = Lt
           \/ candidate = old
           \/ (version.Minor old + 1 < version.Minor candidate)%N ->
           In sequentialUpgradeError errs).
Proof using Type.
  intros Hold. unfold ValidateUpdate. cbn [getClusterFromRequest].
  destruct (version.UpgradeConstraint (Version (Spec oldCluster)))
    as [constraint|err] eqn:Hc.
  2:{ unfold version.UpgradeConstraint in Hc. rewrite Hold in Hc. discriminate. }
  assert (Hcheck : version.Check constraint (version.Semver (Version (Spec newCluster))) = true
                   <-> sequentialUpgrade old (Version (Spec newCluster))).
  { apply Check_UpgradeConstraint.
    destruct (Version (Spec oldCluster)) as [sv]. cbn in Hold. now subst sv. }
  pose proof (sequentialUpgradeError_fresh w newCluster) as Hfresh.
  eexists. split; [reflexivity|].
  destruct (version.Check constraint (version.Semver (Version (Spec newCluster))))
    eqn:Hallowed; cbn [negb].
  - assert (Hseq : sequentialUpgrade old (Version (Spec newCluster)))
      by now apply Hcheck.
    split; [reflexivity|]. split; [intros Hn; now destruct Hn|].
    split; [split; [intros Hin; now destruct Hfresh | intros Hn; now destruct Hn]|].
    intros candidate Hcand Hcase. exfalso.
    destruct Hseq as (c & Hsv & Hmajor & Hminor).
    rewrite Hcand in Hsv. injection Hsv as <-.
    destruct Hcase as [Hlt|[->|Hskip]]; [|lia|lia].
    unfold version.compare in Hlt. rewrite Hmajor, N.compare_refl in Hlt.
    destruct (N.compare_spec (version.Minor candidate) (version.Minor old));
      try discriminate; lia.
  - assert (Hseq : ~ sequentialUpgrade old (Version (Spec newCluster))).
    { intros H. apply Hcheck in H. discriminate. }
    assert (Hin : In sequentialUpgradeError
                    (append (validateCluster w newCluster) sequentialUpgradeError)).
    { apply in_or_app. right. now left. }
    split; [intros Hy; now destruct Hseq|]. split; [reflexivity|].
    split; [split; auto|]. auto.
Qed.

(** C9.  For every update request whose old spec's version cannot be parsed
    into (major, minor, patch), [ValidateUpdate] fails with a propagated hard
    error, not a field-error rejection, whatever field errors the shared
    rules have produced on the new spec. *)
Theorem ValidateUpdate_unparsed_old_version
    (w : TemporalClusterWebhook) (oldCluster newCluster : TemporalCluster) :
  version.Semver (Version (Spec oldCluster)) = None ->
  ValidateUpdate w (ObjTemporalCluster oldCluster) (ObjTemporalCluster newCluster)
  = Some (Errorf "can't compute version upgrade constraint"
            (errors_New "malformed-version"))
  /\ forall errs,
       ValidateUpdate w (ObjTemporalCluster oldCluster) (ObjTemporalCluster newCluster)
       <> aggregateClusterErrors w newCluster errs.
Proof using Type.
  intros Hold.
  assert (Hrun : ValidateUpdate w (ObjTemporalCluster oldCluster)
                   (ObjTemporalCluster newCluster)
                 = Some (Errorf "can't compute version upgrade constraint"
                           (errors_New "malformed-version"))).
  { unfold ValidateUpdate, version.UpgradeConstraint.
    cbn [getClusterFromRequest]. now rewrite Hold. }
  split; [exact Hrun|].
  intros errs. rewrite Hrun. unfold aggregateClusterErrors.
  destruct (Nat.eqb (List.length errs) 0); discriminate.
Qed.

(** ** Further properties of the entry points *)

Lemma aggregate_None (w : TemporalClusterWebhook) (cluster : TemporalCluster)
    (errs : ErrorList) :
  aggregateClusterErrors w cluster errs = None <-> errs = [].
Proof using Type.
  destruct errs; cbn; split; intros H; try reflexivity; discriminate H.
Qed.

Lemma HostPort_nonempty (a host port : string) :
  HostPort a host port -> a <> "".
Proof using Type.
  intros [h p _ _ | h p _ _ _]; [destruct h|]; discriminate.
Qed.

(** The fields that [validateCluster] reads decide its result. *)
Lemma validateCluster_reads (w : TemporalClusterWebhook)
    (c c' : TemporalCluster) :
  Version (Spec c') = Version (Spec c) ->
  MTLS (Spec c') = MTLS (Spec c) ->
  Persistence (Spec c') = Persistence (Spec c) ->
  validateCluster w c' = validateCluster w c.
Proof using Type.
  intros Hv Hm Hp.
  unfold validateCluster, MTLSWithCertManagerEnabled, mTLSProviderError,
    elasticsearchV6.
  now rewrite Hv, Hm, Hp.
Qed.

(** An error of the migration block is a malformed-address error, raised
    for an address that is subject to migration and is no valid pair, and
    the cluster is as it was. *)
Lemma migrate_error (cluster cluster' : TemporalCluster) (e : error) :
  migrateListenAddress cluster = (cluster', Some e) ->
  cluster' = cluster
  /\ exists address,
       needsMigration cluster address
       /\ malformedAddress address e
       /\ ~ (exists host port n,
                HostPort address host port /\ base10 port = Some n /\ fitsInt32 n).
Proof using Type.
  unfold migrateListenAddress.
  destruct (MetricsEnabled (Metrics (Spec cluster))) eqn:Hon; [|discriminate].
  destruct (prometheusOf cluster) as [prom|] eqn:Hprom; [|discriminate].
  destruct (String.eqb_spec (ListenAddress prom) "") as [|Hne]; [discriminate|].
  destruct (ListenPort prom) as [port|] eqn:Hport; [discriminate|].
  cbn [negb andb].
  assert (Hneeds : needsMigration cluster (ListenAddress prom)).
  { split; [exact Hon|]. exists prom. auto. }
  destruct (net.SplitHostPort (ListenAddress prom)) as [[host port] [e0|]] eqn:Es.
  - intros H. injection H as <- <-. split; [reflexivity|].
    exists (ListenAddress prom). split; [exact Hneeds|]. split.
    + destruct (SplitHostPort_error _ _ _ Es) as [why ->]. left. eauto.
    + intros (h & p & n & Hhp & _). apply SplitHostPort_complete in Hhp.
      rewrite Hhp in Es. discriminate Es.
  - destruct (strconv.ParseInt port 10 32) as [n [e0|]] eqn:Ep; [|discriminate].
    intros H. injection H as <- <-. split; [reflexivity|].
    exists (ListenAddress prom). split; [exact Hneeds|]. split.
    + destruct (ParseInt_error _ _ _ Ep) as [cause ->]. right. eauto.
    + intros (h & p & m & Hhp & Hnum & Hfit).
      apply SplitHostPort_complete in Hhp. rewrite Hhp in Es.
      injection Es as <- <-.
      assert (Hok : strconv.ParseInt p 10 32 = (m, None))
        by (apply ParseInt_spec; auto).
      rewrite Hok in Ep. discriminate Ep.
Qed.

(** A successful run of the migration block changes nothing outside the
    Prometheus listen fields. *)
Lemma migrate_frame (cluster cluster' : TemporalCluster) :
  migrateListenAddress cluster = (cluster', None) ->
  GetName cluster' = GetName cluster
  /\ GroupVersionKind_GroupKind cluster' = GroupVersionKind_GroupKind cluster
  /\ Version (Spec cluster') = Version (Spec cluster)
  /\ MTLS (Spec cluster') = MTLS (Spec cluster)
  /\ Persistence (Spec cluster') = Persistence (Spec cluster)
  /\ MetricsEnabled (Metrics (Spec cluster'))
     = MetricsEnabled (Metrics (Spec cluster)).
Proof using Type.
  intros Hm.
  assert (Hcases : cluster' = cluster
                   \/ exists port,
                        cluster' = set_ListenPort port (set_ListenAddress "" cluster)).
  { revert Hm. unfold migrateListenAddress.
    destruct (MetricsEnabled (Metrics (Spec cluster)));
      [|intros H; injection H as <-; now left].
    destruct (prometheusOf cluster) as [prom|];
      [|intros H; injection H as <-; now left].
    destruct (negb (String.eqb (ListenAddress prom) "")
              && match ListenPort prom with None => true | Some _ => false end);
      [|intros H; injection H as <-; now left].
    destruct (net.SplitHostPort (ListenAddress prom)) as [[host port] [e|]];
      [discriminate|].
    destruct (strconv.ParseInt port 10 32) as [n [e|]]; [discriminate|].
    intros H. injection H as <-. right. eauto. }
  destruct Hcases as [-> | [port ->]]; [repeat split|].
  unfold set_ListenPort, set_ListenAddress, updatePrometheus. cbn.
  destruct (Metrics (Spec cluster)) as [m|]; cbn; repeat split.
Qed.

(** X1.  An object that is no TemporalCluster is a bad request at every
    entry point: [Default] returns the error and leaves the object as it is,
    [ValidateCreate] returns it, and [ValidateUpdate] returns it for the old
    object first, whatever the new object is, and for the new object before
    the old version is looked at. *)
Theorem wrong_kind_is_bad_request
    (w : TemporalClusterWebhook) (goType : string) :
  Default w (ObjOther goType)
  = (ObjOther goType,
     Some (NewBadRequest ("expected an TemporalCluster but got a " ++ goType)))
  /\ ValidateCreate w (ObjOther goType)
     = Some (NewBadRequest ("expected an TemporalCluster but got a " ++ goType))
  /\ (forall newObj,
         ValidateUpdate w (ObjOther goType) newObj
         = Some (NewBadRequest ("expected an TemporalCluster but got a " ++ goType)))
  /\ (forall oldCluster,
         ValidateUpdate w (ObjTemporalCluster oldCluster) (ObjOther goType)
         = Some (NewBadRequest ("expected an TemporalCluster but got a " ++ goType))).
Proof using Type.
  repeat split.
Qed.

(** X2.  [ValidateCreate] admits a cluster exactly when the three rules
    pass: cert-manager is available if the cluster asks for mTLS through it,
    [Validate] accepts the version, and it is not the case that the version
    is at least [V1_18_0] while the advanced visibility store is on
    Elasticsearch "v6". *)
Theorem ValidateCreate_admits_iff
    (w : TemporalClusterWebhook) (cluster : TemporalCluster) :
  ValidateCreate w (ObjTemporalCluster cluster) = None
  <-> (MTLSWithCertManagerEnabled cluster = true ->
       CertManager (AvailableAPIs_ w) = true)
      /\ version.Validate SupportedVersionsRange (Version (Spec cluster)) = None
      /\ ~ (version.GreaterOrEqual (Version (Spec cluster)) version.V1_18_0 = true
            /\ elasticsearchVersion cluster "v6").
Proof using Type.
  clear cluster_Default.
  unfold ValidateCreate. cbn [getClusterFromRequest].
  rewrite aggregate_None, validateCluster_rules.
  rewrite <- elasticsearchV6_spec. unfold version.Validate.
  destruct (MTLSWithCertManagerEnabled cluster);
    destruct (CertManager (AvailableAPIs_ w));
    destruct (version.Check SupportedVersionsRange
                (version.Semver (Version (Spec cluster))));
    destruct (version.GreaterOrEqual (Version (Spec cluster)) version.V1_18_0);
    destruct (elasticsearchV6 cluster);
    cbn; split;
    try discriminate; try reflexivity;
    try (intros (H1 & H2 & H3); try discriminate H2;
         try (discriminate H1; reflexivity);
         try (exfalso; apply H3; split; reflexivity));
    try (intros _; repeat split; auto; intros [H1 H2]; discriminate).
Qed.

(** X3.  [ValidateUpdate] admits an update exactly when [UpgradeConstraint]
    of the old version succeeds, the constraint's [Check] accepts the new
    version, and [ValidateCreate] admits the new cluster. *)
Theorem ValidateUpdate_admits_iff
    (w : TemporalClusterWebhook) (oldCluster newCluster : TemporalCluster) :
  ValidateUpdate w (ObjTemporalCluster oldCluster) (ObjTemporalCluster newCluster)
  = None
  <-> (exists constraint,
          version.UpgradeConstraint (Version (Spec oldCluster)) = inl constraint
          /\ version.Check constraint
               (version.Semver (Version (Spec newCluster))) = true)
      /\ ValidateCreate w (ObjTemporalCluster newCluster) = None.
Proof using Type.
  clear cluster_Default.
  unfold ValidateUpdate, ValidateCreate. cbn [getClusterFromRequest].
  rewrite aggregate_None.
  destruct (version.UpgradeConstraint (Version (Spec oldCluster)))
    as [constraint|err].
  - destruct (version.Check constraint
                (version.Semver (Version (Spec newCluster)))) eqn:Hallowed;
      cbn [negb]; rewrite aggregate_None.
    + split.
      * intros Herrs. split; [|exact Herrs]. exists constraint. auto.
      * intros [_ Herrs]. exact Herrs.
    + split.
      * intros Herrs. unfold append in Herrs.
        apply app_eq_nil in Herrs. destruct Herrs as [_ Herrs].
        discriminate Herrs.
      * intros [(c & Hc & Hcheck) _]. injection Hc as <-.
        rewrite Hallowed in Hcheck. discriminate Hcheck.
  - split; [discriminate|].
    intros [(c & Hc & _) _]. discriminate Hc.
Qed.

(** X4.  [validateCluster] evaluates every rule, without short-circuit: each
    of the three errors is reported exactly when its own rule is violated,
    and a cluster that violates all three gets the three errors in the order
    mTLS provider, version, Elasticsearch. *)
Theorem validateCluster_reports_each_rule
    (w : TemporalClusterWebhook) (cluster : TemporalCluster) :
  (In (mTLSProviderError cluster) (validateCluster w cluster)
   <-> MTLSWithCertManagerEnabled cluster = true
       /\ CertManager (AvailableAPIs_ w) = false)
  /\ (In unsupportedVersionError (validateCluster w cluster)
      <-> version.Validate SupportedVersionsRange (Version (Spec cluster)) <> None)
  /\ (In elasticsearchV6Error (validateCluster w cluster)
      <-> version.GreaterOrEqual (Version (Spec cluster)) version.V1_18_0 = true
          /\ elasticsearchVersion cluster "v6")
  /\ (MTLSWithCertManagerEnabled cluster = true ->
      CertManager (AvailableAPIs_ w) = false ->
      version.Validate SupportedVersionsRange (Version (Spec cluster)) <> None ->
      version.GreaterOrEqual (Version (Spec cluster)) version.V1_18_0 = true ->
      elasticsearchVersion cluster "v6" ->
      validateCluster w cluster
      = [mTLSProviderError cluster; unsupportedVersionError; elasticsearchV6Error]).
Proof using Type.
  clear cluster_Default.
  rewrite validateCluster_rules.
  rewrite <- elasticsearchV6_spec. unfold version.Validate.
  destruct (MTLSWithCertManagerEnabled cluster);
    destruct (CertManager (AvailableAPIs_ w));
    destruct (version.Check SupportedVersionsRange
                (version.Semver (Version (Spec cluster))));
    destruct (version.GreaterOrEqual (Version (Spec cluster)) version.V1_18_0);
    destruct (elasticsearchV6 cluster);
    cbn;
    repeat split; intros;
    repeat match goal with
           | H : _ /\ _ |- _ => destruct H
           end;
    split_members;
    try discriminate; try reflexivity; try congruence; auto;
    match goal with
    | H : _ = _ :> FieldError |- _ => cbv in H; discriminate H
    end.
Qed.

(** X5.  [ValidateUpdate] reads nothing of the old object but its version:
    two old clusters with the same version give the same answer. *)
Theorem ValidateUpdate_reads_old_version_only
    (w : TemporalClusterWebhook) (oldCluster oldCluster' : TemporalCluster)
    (newObj : Object) :
  Version (Spec oldCluster) = Version (Spec oldCluster') ->
  ValidateUpdate w (ObjTemporalCluster oldCluster) newObj
  = ValidateUpdate w (ObjTemporalCluster oldCluster') newObj.
Proof using Type.
  intros Hv. unfold ValidateUpdate. cbn [getClusterFromRequest].
  now rewrite Hv.
Qed.

(** X6.  What [ValidateCreate] rejects, [ValidateUpdate] rejects too: when
    [UpgradeConstraint] of the old version succeeds, the update is rejected
    with the same errors in the same order, followed by the
    sequential-upgrade error or by nothing. *)
Theorem ValidateUpdate_keeps_create_errors
    (w : TemporalClusterWebhook) (oldCluster newCluster : TemporalCluster)
    (constraint : version.Constraints) (qualifiedKind : GroupKind)
    (name : string) (errs : ErrorList) :
  version.UpgradeConstraint (Version (Spec oldCluster)) = inl constraint ->
  ValidateCreate w (ObjTemporalCluster newCluster)
  = Some (NewInvalid qualifiedKind name errs) ->
  exists more,
    ValidateUpdate w (ObjTemporalCluster oldCluster) (ObjTemporalCluster newCluster)
    = Some (NewInvalid qualifiedKind name (errs ++ more)%list)
    /\ (more = [] \/ more = [sequentialUpgradeError]).
Proof using Type.
  intros Hold. unfold ValidateCreate, ValidateUpdate.
  cbn [getClusterFromRequest]. rewrite Hold.
  destruct (validateCluster w newCluster) as [|e errs0] eqn:Herrs;
    [discriminate|].
  cbn [aggregateClusterErrors List.length Nat.eqb].
  intros H. injection H as <- <- <-.
  destruct (version.Check constraint
              (version.Semver (Version (Spec newCluster)))); cbn [negb].
  - exists []. rewrite app_nil_r. auto.
  - exists [sequentialUpgradeError]. auto.
Qed.

(** X7.  [validateCluster] never looks at the metrics block, the name or
    the group and kind of the cluster: changing them changes no error. *)
Theorem validateCluster_ignores_metrics
    (w : TemporalClusterWebhook) (qualifiedKind qualifiedKind' : GroupKind)
    (name name' : string) (v : version.Version)
    (metrics metrics' : option MetricsSpec) (mtls : option MTLSSpec)
    (persistence : TemporalPersistenceSpec) :
  validateCluster w
    (mkTemporalCluster qualifiedKind name
       (mkTemporalClusterSpec v metrics mtls persistence))
  = validateCluster w
      (mkTemporalCluster qualifiedKind' name'
         (mkTemporalClusterSpec v metrics' mtls persistence)).
Proof using Type.
  apply validateCluster_reads; reflexivity.
Qed.

(** X8.  [Default] parses the legacy address only when it has to: with
    metrics off, no Prometheus block, an empty [listenAddress] or a
    [listenPort] already set, it returns no error, whatever the address
    holds, and hands the cluster untouched to the bulk defaulting. *)
Theorem Default_skips_migration
    (w : TemporalClusterWebhook) (cluster : TemporalCluster) :
  MetricsEnabled (Metrics (Spec cluster)) = false
  \/ prometheusOf cluster = None
  \/ (exists prom,
         prometheusOf cluster = Some prom
         /\ (ListenAddress prom = "" \/ ListenPort prom <> None)) ->
  Default w (ObjTemporalCluster cluster)
  = (ObjTemporalCluster (cluster_Default cluster), None).
Proof using Type.
  intros Hskip. unfold Default. cbn [getClusterFromRequest].
  rewrite migrate_skip; [reflexivity|].
  intros address (Hon & prom & Hprom & Haddr & Hne & Hport).
  destruct Hskip as [Hoff | [Hnone | (prom' & Hprom' & Hcase)]].
  - rewrite Hoff in Hon. discriminate Hon.
  - rewrite Hnone in Hprom. discriminate Hprom.
  - rewrite Hprom' in Hprom. injection Hprom as ->.
    destruct Hcase as [Hempty | Hset].
    + apply Hne. now rewrite <- Haddr.
    + now apply Hset.
Qed.

(** X9.  The only error [Default] returns for a TemporalCluster is the
    malformed-address error: the legacy address was subject to migration and
    is no valid host:port pair with a base-10 port fitting 32 bits, and the
    object is returned as it came. *)
Theorem Default_fails_only_on_malformed_address
    (w : TemporalClusterWebhook) (cluster : TemporalCluster)
    (obj' : Object) (e : error) :
  Default w (ObjTemporalCluster cluster) = (obj', Some e) ->
  obj' = ObjTemporalCluster cluster
  /\ exists address,
       needsMigration cluster address
       /\ malformedAddress address e
       /\ ~ (exists host port n,
                HostPort address host port /\ base10 port = Some n /\ fitsInt32 n).
Proof using Type.
  unfold Default. cbn [getClusterFromRequest].
  destruct (migrateListenAddress cluster) as [migrated [e0|]] eqn:Hm;
    [|discriminate].
  intros H. injection H as <- <-.
  destruct (migrate_error _ _ _ Hm) as [-> Hrest]. auto.
Qed.

(** X10.  On success [Default] hands to the bulk defaulting a cluster that
    differs from the submitted one in the Prometheus listen fields at most:
    name, group and kind, version, mTLS and persistence are the same,
    metrics are enabled or not as before, and [validateCluster] reports the
    same errors on it. *)
Theorem Default_migration_frame
    (w : TemporalClusterWebhook) (cluster cluster' : TemporalCluster) :
  Default w (ObjTemporalCluster cluster) = (ObjTemporalCluster cluster', None) ->
  exists migrated,
    cluster' = cluster_Default migrated
    /\ GetName migrated = GetName cluster
    /\ GroupVersionKind_GroupKind migrated = GroupVersionKind_GroupKind cluster
    /\ Version (Spec migrated) = Version (Spec cluster)
    /\ MTLS (Spec migrated) = MTLS (Spec cluster)
    /\ Persistence (Spec migrated) = Persistence (Spec cluster)
    /\ MetricsEnabled (Metrics (Spec migrated))
       = MetricsEnabled (Metrics (Spec cluster))
    /\ validateCluster w migrated = validateCluster w cluster.
Proof using Type.
  unfold Default. cbn [getClusterFromRequest].
  destruct (migrateListenAddress cluster) as [migrated [e0|]] eqn:Hm;
    [discriminate|].
  intros H. injection H as <-. exists migrated.
  destruct (migrate_frame _ _ Hm) as (Hn & Hk & Hv & Hmtls & Hp & Hon).
  repeat split; try assumption.
  now apply validateCluster_reads.
Qed.

(** X11.  The host part of the legacy address is dropped: two addresses
    that are valid pairs with the same port, whatever their hosts, migrate
    to the same cluster. *)
Theorem Default_drops_host
    (w : TemporalClusterWebhook) (cluster : TemporalCluster)
    (prom : PrometheusSpec) (a1 a2 host1 host2 port : string) (n : Z) :
  MetricsEnabled (Metrics (Spec cluster)) = true ->
  prometheusOf cluster = Some prom ->
  ListenPort prom = None ->
  HostPort a1 host1 port ->
  HostPort a2 host2 port ->
  base10 port = Some n ->
  fitsInt32 n ->
  Default w (ObjTemporalCluster (set_ListenAddress a1 cluster))
  = Default w (ObjTemporalCluster (set_ListenAddress a2 cluster))
  /\ snd (Default w (ObjTemporalCluster (set_ListenAddress a1 cluster))) = None.
Proof using Type.
  intros Hon Hprom Hport H1 H2 Hnum Hfit.
  assert (Hneeds : forall a host,
             HostPort a host port ->
             needsMigration (set_ListenAddress a cluster) a).
  { intros a host Ha. unfold needsMigration, prometheusOf, set_ListenAddress,
      updatePrometheus in *. cbn.
    destruct (Metrics (Spec cluster)) as [m|]; [|discriminate].
    cbn in *. rewrite Hprom. cbn. split; [exact Hon|].
    eexists. split; [reflexivity|]. cbn.
    split; [reflexivity|]. split; [|exact Hport].
    exact (HostPort_nonempty _ _ _ Ha). }
  assert (Hsame : forall a,
             set_ListenPort (Some n) (set_ListenAddress "" (set_ListenAddress a cluster))
             = set_ListenPort (Some n) (set_ListenAddress "" cluster)).
  { intros a. unfold set_ListenPort, set_ListenAddress, updatePrometheus. cbn.
    destruct (Metrics (Spec cluster)) as [m|]; cbn; [|reflexivity].
    destruct (Prometheus m); reflexivity. }
  unfold Default. cbn [getClusterFromRequest].
  rewrite (migrate_success _ _ _ _ _ (Hneeds _ _ H1) H1 Hnum Hfit).
  rewrite (migrate_success _ _ _ _ _ (Hneeds _ _ H2) H2 Hnum Hfit).
  rewrite !Hsame. auto.
Qed.

(** The loop of [ParseUint] stays within the 32-bit bound. *)
Lemma parseLoop_bounds (s0 s : string) (n : Z) :
  0 <= n <= maxVal32 ->
  0 <= fst (strconv.parseLoop s0 10 cutoff64 maxVal32 s n) <= maxVal32.
Proof using Type.
  assert (Hmax : maxVal32 = 4294967295) by reflexivity.
  revert n. induction s as [|c s IH]; intros n Hn; cbn [strconv.parseLoop].
  - exact Hn.
  - destruct (strconv.digit 10 c) as [d|]; [|cbn; lia].
    destruct (cutoff64 <=? n); [cbn; lia|].
    destruct (Z.ltb_spec maxVal32 (strconv.uint64 (strconv.uint64 (n * 10) + d)))
      as [Hover|Hfit].
    + rewrite orb_true_r. cbn. lia.
    + destruct (strconv.uint64 (strconv.uint64 (n * 10) + d)
                <? strconv.uint64 (n * 10)); [cbn; lia|].
      cbn [orb]. apply IH. split; [|exact Hfit].
      unfold strconv.uint64. apply Z.mod_pos_bound. reflexivity.
Qed.

Lemma ParseUint_bounds (s : string) :
  0 <= fst (strconv.ParseUint s 10 32) <= maxVal32.
Proof using Type.
  unfold strconv.ParseUint. destruct (String.eqb s "").
  - cbn. split; [lia | discriminate].
  - apply parseLoop_bounds. split; [lia | discriminate].
Qed.

(** X12.  Whatever the port segment, the number [ParseInt(port, 10, 32)]
    returns lies within the signed 32-bit range, with or without an error,
    so the conversion [int32(portInt)] of [Default] never wraps around. *)
Theorem ParseInt_within_int32 (s : string) :
  fitsInt32 (fst (strconv.ParseInt s 10 32))
  /\ int32 (fst (strconv.ParseInt s 10 32)) = fst (strconv.ParseInt s 10 32).
Proof using Type.
  assert (Hfit : fitsInt32 (fst (strconv.ParseInt s 10 32))).
  { unfold strconv.ParseInt, fitsInt32. change (2 ^ 31) with 2147483648.
    change (strconv.uint64 (Z.shiftl 1 (32 - 1))) with 2147483648.
    destruct (String.eqb s ""); [cbn; lia|].
    destruct (if Ascii.eqb (at_ s 0) "+" then (false, sliceFrom s 1)
              else if Ascii.eqb (at_ s 0) "-" then (true, sliceFrom s 1)
                   else (false, s)) as [neg s'].
    pose proof (ParseUint_bounds s') as Hun.
    destruct (strconv.ParseUint s' 10 32) as [un err]. cbn [fst] in Hun.
    match goal with
    | |- context [if ?b then _ else _] => destruct b
    end; [cbn; lia|].
    destruct neg; cbn [negb andb].
    - destruct (Z.ltb_spec 2147483648 un); cbn [fst]; lia.
    - destruct (Z.leb_spec 2147483648 un); cbn [fst]; lia. }
  split; [exact Hfit | now apply int32_fits].
Qed.

(** X14.  A legacy address that is subject to migration and holds no colon
    at all makes [Default] fail with the missing-port error of the address,
    and the object stays as it was. *)
Theorem Default_address_without_colon
    (w : TemporalClusterWebhook) (cluster : TemporalCluster) (address : string) :
  needsMigration cluster address ->
  ~ occurs ":"%char address ->
  Default w (ObjTemporalCluster cluster)
  = (ObjTemporalCluster cluster,
     Some (Errorf "can't parse prometheus spec.metrics.prometheus.listenAddress"
             (AddrError "missing port in address" address))).
Proof using Type.
  intros (Hon & prom & Hprom & Haddr & Hne & Hport) Hcolon.
  unfold Default, migrateListenAddress. cbn [getClusterFromRequest].
  rewrite Hon, Hprom, Haddr, Hport.
  apply String.eqb_neq in Hne. rewrite Hne. cbn [negb andb].
  unfold net.SplitHostPort, LastIndexByteString.
  apply lastIndex_None in Hcolon. rewrite Hcolon. reflexivity.
Qed.

End Webhook.

(** ** [Default] with the bulk defaulting of the spec *)

Lemma orDefault_twice {A : Type} (default field : option A) :
  orDefault default (orDefault default field) = orDefault default field.
Proof. destruct field; [reflexivity | now destruct default]. Qed.

Lemma default_PrometheusSpec_twice (d : SchemaDefaults)
    (prom : option PrometheusSpec) :
  default_PrometheusSpec d (default_PrometheusSpec d prom)
  = default_PrometheusSpec d prom.
Proof.
  unfold default_PrometheusSpec.
  destruct prom as [[address [port|]]|]; destruct (default_Prometheus d);
    destruct (default_ListenPort d); reflexivity.
Qed.

Lemma default_MetricsSpec_twice (d : SchemaDefaults)
    (metrics : option MetricsSpec) :
  default_MetricsSpec d (default_MetricsSpec d metrics)
  = default_MetricsSpec d metrics.
Proof.
  unfold default_MetricsSpec.
  destruct metrics as [m|]; cbn; [|destruct (default_Metrics d); cbn];
    try reflexivity; now rewrite default_PrometheusSpec_twice.
Qed.

Lemma default_PersistenceSpec_twice (d : SchemaDefaults)
    (persistence : TemporalPersistenceSpec) :
  default_PersistenceSpec d (default_PersistenceSpec d persistence)
  = default_PersistenceSpec d persistence.
Proof.
  unfold default_PersistenceSpec. cbn. f_equal.
  destruct (AdvancedVisibilityStore persistence) as [store|]; cbn;
    [|destruct (default_AdvancedVisibilityStore d); cbn];
    try reflexivity; now rewrite orDefault_twice.
Qed.

(** The bulk defaulting finds nothing more to fill the second time. *)
Lemma TemporalCluster_Default_fillsOnce (d : SchemaDefaults) :
  fillsOnce (TemporalCluster_Default d).
Proof.
  intros c. unfold TemporalCluster_Default. cbn.
  now rewrite default_MetricsSpec_twice, orDefault_twice,
    default_PersistenceSpec_twice.
Qed.

(** The bulk defaulting makes no cluster subject to migration: it sets no
    legacy address, unsets no port and switches no metrics block. *)
Lemma TemporalCluster_Default_never_arms (d : SchemaDefaults)
    (c : TemporalCluster) (address : string) :
  needsMigration (TemporalCluster_Default d c) address ->
  needsMigration c address.
Proof.
  unfold needsMigration, prometheusOf, TemporalCluster_Default,
    default_MetricsSpec, default_PrometheusSpec. cbn.
  destruct (Metrics (Spec c)) as [m|]; cbn.
  - intros (Hon & prom & Hprom & Haddr & Hne & Hport).
    split; [exact Hon|].
    destruct (Prometheus m) as [p|]; cbn in Hprom.
    + injection Hprom as <-. cbn in Haddr, Hport.
      exists p. split; [reflexivity|]. split; [exact Haddr|].
      split; [exact Hne|].
      destruct (ListenPort p); [discriminate Hport | reflexivity].
    + destruct (default_Prometheus d); cbn in Hprom; [|discriminate Hprom].
      injection Hprom as <-. cbn in Haddr. now destruct Hne.
  - destruct (default_Metrics d) as [enabled|]; cbn.
    + intros (_ & prom & Hprom & Haddr & Hne & _).
      destruct (default_Prometheus d); cbn in Hprom; [|discriminate Hprom].
      injection Hprom as <-. cbn in Haddr. now destruct Hne.
    + intros (Hon & _). discriminate Hon.
Qed.

(** C7.  [Default] is idempotent: for every object on which [Default]
    succeeds, applying [Default] again to the defaulted object succeeds and
    leaves it unchanged, whatever the schema defaults that the bulk
    defaulting fills in. *)
Theorem Default_idempotent
    (defaults : SchemaDefaults) (w : TemporalClusterWebhook)
    (obj obj' : Object) :
  Default (TemporalCluster_Default defaults) w obj = (obj', None) ->
  Default (TemporalCluster_Default defaults) w obj' = (obj', None).
Proof.
  apply Default_twice.
  - apply TemporalCluster_Default_never_arms.
  - apply TemporalCluster_Default_fillsOnce.
Qed.

(** ** The container loop of the end-to-end harness *)

Lemma HasPrefix_spec (s prefix : string) :
  e2e.HasPrefix s prefix = true <-> exists rest, s = prefix ++ rest.
Proof.
  revert s. induction prefix as [|p prefix IH]; intros s; cbn.
  - split; [intros _; now exists s | reflexivity].
  - destruct s as [|c s].
    + split; [discriminate | intros [rest H]; discriminate H].
    + rewrite andb_true_iff, IH. split.
      * intros [Hc [rest ->]]. apply Ascii.eqb_eq in Hc. subst c.
        now exists rest.
      * intros [rest H]. injection H as -> ->. split;
          [apply Ascii.eqb_refl | now exists rest].
Qed.

(** [Contains] finds exactly the occurrences of [substr] within [s]. *)
Lemma Contains_spec (s substr : string) :
  e2e.Contains s substr = true <-> exists before after, s = before ++ substr ++ after.
Proof.
  induction s as [|c s IH]; cbn [e2e.Contains].
  - rewrite orb_false_r, HasPrefix_spec. split.
    + intros [rest H]. now exists "", rest.
    + intros (before & after & H). destruct before; [|discriminate H].
      now exists after.
  - rewrite orb_true_iff, HasPrefix_spec, IH. split.
    + intros [[rest H] | (before & after & ->)].
      * now exists "", rest.
      * now exists (String c before), after.
    + intros (before & after & H). destruct before as [|b before].
      * left. now exists after.
      * right. injection H as _ ->. now exists before, after.
Qed.

Lemma set_index_middle (pre post : list e2e.Container) (x c : e2e.Container) :
  e2e.set_index (pre ++ x :: post)%list (List.length pre) c
  = (pre ++ c :: post)%list.
Proof.
  induction pre as [|y pre IH]; cbn; [reflexivity | now rewrite IH].
Qed.

Lemma at_index_middle (pre post : list e2e.Container) (x : e2e.Container) :
  e2e.at_index (pre ++ x :: post)%list (List.length pre) = Some x.
Proof.
  unfold e2e.at_index. induction pre as [|y pre IH]; cbn; [reflexivity | exact IH].
Qed.

Lemma patchAt_middle (pre post : list e2e.Container) (x : e2e.Container) :
  e2e.patchAt (pre ++ x :: post)%list (List.length pre)
  = (pre ++ e2e.patched x :: post)%list.
Proof.
  unfold e2e.patchAt, e2e.patched. rewrite at_index_middle.
  destruct (e2e.Contains (e2e.Image x) e2e.publishedImage); [|reflexivity].
  rewrite set_index_middle, at_index_middle, set_index_middle. reflexivity.
Qed.

(** The loop, turn by turn: the containers before index [i] are done, the
    others are still to do. *)
Lemma useLoadedImage_from (pre post : list e2e.Container) :
  fold_left e2e.patchAt (seq (List.length pre) (List.length post))
    (pre ++ post)%list
  = (pre ++ map e2e.patched post)%list.
Proof.
  revert pre. induction post as [|x post IH]; intros pre; cbn.
  - reflexivity.
  - rewrite patchAt_middle.
    replace (pre ++ e2e.patched x :: post)%list
      with ((pre ++ [e2e.patched x]) ++ post)%list
      by (rewrite <- List.app_assoc; reflexivity).
    replace (S (List.length pre))
      with (List.length (pre ++ [e2e.patched x])%list)
      by (rewrite List.length_app; cbn; lia).
    rewrite IH, <- List.app_assoc. reflexivity.
Qed.

Lemma useLoadedImage_map (containers : list e2e.Container) :
  e2e.useLoadedImage containers = map e2e.patched containers.
Proof. exact (useLoadedImage_from [] containers). Qed.

Lemma patched_clean (c : e2e.Container) :
  e2e.Contains (e2e.Image (e2e.patched c)) e2e.publishedImage = false.
Proof.
  unfold e2e.patched.
  destruct (e2e.Contains (e2e.Image c) e2e.publishedImage) eqn:E;
    [reflexivity | exact E].
Qed.

(** X15.  After the container loop of the operator deployment step no
    container runs an image that holds the published operator name, and
    running the loop again changes nothing. *)
Theorem useLoadedImage_settles (containers : list e2e.Container) :
  Forall (fun c => e2e.Contains (e2e.Image c) e2e.publishedImage = false)
    (e2e.useLoadedImage containers)
  /\ e2e.useLoadedImage (e2e.useLoadedImage containers)
     = e2e.useLoadedImage containers.
Proof.
  rewrite !useLoadedImage_map. split.
  - apply Forall_forall. intros c Hin. apply in_map_iff in Hin.
    destruct Hin as (c0 & <- & _). apply patched_clean.
  - rewrite map_map. apply map_ext. intros c.
    unfold e2e.patched at 1. now rewrite patched_clean.
Qed.

(** X16.  The container loop keeps the number, the order and the names of
    the containers; every container whose image holds the published
    operator name gets the image "temporal-operator" and the pull policy
    "IfNotPresent", and every other container is left as it is. *)
Theorem useLoadedImage_changes_operator_only (containers : list e2e.Container) :
  List.length (e2e.useLoadedImage containers) = List.length containers
  /\ map e2e.Name (e2e.useLoadedImage containers) = map e2e.Name containers
  /\ (forall j d,
         nth_error containers j = Some d ->
         ((exists before after,
              e2e.Image d = before ++ e2e.publishedImage ++ after) ->
          nth_error (e2e.useLoadedImage containers) j
          = Some (e2e.mkContainer (e2e.Name d) "temporal-operator" "IfNotPresent"))
         /\ (~ (exists before after,
                   e2e.Image d = before ++ e2e.publishedImage ++ after) ->
             nth_error (e2e.useLoadedImage containers) j = Some d))
  /\ (forall j,
         nth_error containers j = None ->
         nth_error (e2e.useLoadedImage containers) j = None).
Proof.
  rewrite useLoadedImage_map.
  split; [apply List.length_map|]. split; [|split].
  - rewrite map_map. apply map_ext. intros d. unfold e2e.patched.
    now destruct (e2e.Contains (e2e.Image d) e2e.publishedImage).
  - intros j d Hd. rewrite nth_error_map, Hd. cbn [option_map].
    unfold e2e.patched.
    destruct (e2e.Contains (e2e.Image d) e2e.publishedImage) eqn:E.
    + split; [reflexivity|]. intros Hno. destruct Hno.
      exact (proj1 (Contains_spec _ _) E).
    + split; [|reflexivity]. intros Hin.
      apply (proj2 (Contains_spec _ _)) in Hin.
      rewrite Hin in E. discriminate E.
  - intros j Hj. rewrite nth_error_map, Hj. reflexivity.
Qed.

(** ** Worked requests *)

(** From 1.17.0 the upgrade constraint admits 1.18.3 and refuses 1.19.0,
    1.16.9 and 1.17.0 itself. *)
Example UpgradeConstraint_1_17_0 :
  match version.UpgradeConstraint (version.ofTriple 1 17 0) with
  | inl c =>
      map (fun v => version.Check c (version.Semver v))
        [version.ofTriple 1 18 3; version.ofTriple 1 19 0;
         version.ofTriple 1 16 9; version.ofTriple 1 17 0]
  | inr _ => []
  end = [true; false; false; false].
Proof. reflexivity. Qed.

(** Creating a cluster at 1.30.0, outside 1.17 to 1.23, is rejected. *)
Example create_1_30_0_rejected :
  ValidateCreate Sample.supported Sample.supportedString Sample.withCertManager
    (ObjTemporalCluster (Sample.bare (version.ofTriple 1 30 0)))
  = Some (NewInvalid Sample.groupKind "prod"
            [mkFieldError ErrorTypeForbidden "spec.version" ""
               "Unsupported temporal version (supported: >=1.17.0 <1.24.0)"]).
Proof. reflexivity. Qed.

(** Updating from 1.17.5 to 1.18.0 is admitted. *)
Example update_1_17_5_to_1_18_0_admitted :
  ValidateUpdate Sample.supported Sample.supportedString Sample.withCertManager
    (ObjTemporalCluster (Sample.bare (version.ofTriple 1 17 5)))
    (ObjTemporalCluster (Sample.bare (version.ofTriple 1 18 0)))
  = None.
Proof. reflexivity. Qed.

(** Updating from 1.17.5 to 1.19.0 skips a minor version and is rejected. *)
Example update_1_17_5_to_1_19_0_rejected :
  ValidateUpdate Sample.supported Sample.supportedString Sample.withCertManager
    (ObjTemporalCluster (Sample.bare (version.ofTriple 1 17 5)))
    (ObjTemporalCluster (Sample.bare (version.ofTriple 1 19 0)))
  = Some (NewInvalid Sample.groupKind "prod"
            [mkFieldError ErrorTypeForbidden "spec.version" ""
               "Unauthorized version upgrade. Only sequential version upgrades are allowed (from v1.n.x to v1.n+1.x)"]).
Proof. reflexivity. Qed.

(** An object of another kind is a bad request. *)
Example Default_other_kind :
  Default Sample.nothingOmitted Sample.withCertManager (ObjOther "*v1.Pod")
  = (ObjOther "*v1.Pod",
     Some (NewBadRequest "expected an TemporalCluster but got a *v1.Pod")).
Proof. reflexivity. Qed.

Example SplitHostPort_samples :
  map net.SplitHostPort ["0.0.0.0:9090"; "[::1]:9090"; ":80"; "not-an-address"; "::1:9090"]
  = [(("0.0.0.0", "9090"), None);
     (("::1", "9090"), None);
     (("", "80"), None);
     (("", ""), Some (AddrError "missing port in address" "not-an-address"));
     (("", ""), Some (AddrError "too many colons in address" "::1:9090"))].
Proof. reflexivity. Qed.

Example ParseInt_samples :
  map (fun s => strconv.ParseInt s 10 32)
    ["9090"; "-1"; "+70000"; "2147483647"; "2147483648"; "-2147483648"; "80a"; ""]
  = [(9090, None);
     (-1, None);
     (70000, None);
     (2147483647, None);
     (2147483647, Some (NumError "ParseInt" "2147483648" ErrRange));
     (-2147483648, None);
     (0, Some (NumError "ParseInt" "80a" ErrSyntax));
     (0, Some (NumError "ParseInt" "" ErrSyntax))].
Proof. reflexivity. Qed.

(** [ValidateDelete] admits every object. *)
Lemma ValidateDelete_admits (w : TemporalClusterWebhook) (obj : Object) :
  ValidateDelete w obj = None.
Proof. reflexivity. Qed.

(** ** The statements at the sample configuration *)

Lemma nothingOmitted_leavesMetrics : leavesMetrics Sample.nothingOmitted.
Proof. intros c. reflexivity. Qed.

Lemma nothingOmitted_fillsOnce : fillsOnce Sample.nothingOmitted.
Proof. intros c. reflexivity. Qed.

Lemma legacyAddress_needsMigration (address : string) :
  address <> "" -> needsMigration (Sample.legacyAddress address) address.
Proof.
  intros Hne. split; [reflexivity|].
  exists (mkPrometheusSpec address None). auto.
Qed.

Lemma HostPort_sample : HostPort "0.0.0.0:9090" "0.0.0.0" "9090".
Proof.
  apply (HostPort_name "0.0.0.0" "9090");
    repeat split; simpl; intros H;
    repeat (destruct H as [H|H]; [discriminate H|]); exact H.
Qed.

(** C3: a spec submitted with both fields set is defaulted without error and
    keeps both fields set. *)
Lemma Default_leaves_both_fields_set :
  Default Sample.nothingOmitted Sample.withCertManager
    (ObjTemporalCluster Sample.bothListenFields)
  = (ObjTemporalCluster Sample.bothListenFields, None)
  /\ ~ mutuallyExclusive Sample.bothListenFields.
Proof.
  split; [reflexivity|].
  intros H. apply (H (mkPrometheusSpec "0.0.0.0:9090" (Some 9090)));
    [reflexivity|].
  split; discriminate.
Qed.

Lemma Default_keeps_listen_fields_apart_witness :
  exists handed,
    Sample.migrated = Sample.nothingOmitted handed
    /\ (mutuallyExclusive (Sample.legacyAddress "0.0.0.0:9090") ->
        mutuallyExclusive handed)
    /\ (bothSet (Sample.legacyAddress "0.0.0.0:9090") ->
        handed = Sample.legacyAddress "0.0.0.0:9090")
    /\ (leavesMetrics Sample.nothingOmitted ->
        (mutuallyExclusive (Sample.legacyAddress "0.0.0.0:9090") ->
         mutuallyExclusive Sample.migrated)
        /\ (bothSet (Sample.legacyAddress "0.0.0.0:9090") ->
            bothSet Sample.migrated)).
Proof.
  apply (Default_keeps_listen_fields_apart Sample.nothingOmitted
           Sample.withCertManager (Sample.legacyAddress "0.0.0.0:9090")
           Sample.migrated).
  reflexivity.
Defined.

Lemma Default_migrates_listenAddress_witness :
  exists cluster',
    Default Sample.nothingOmitted Sample.withCertManager
      (ObjTemporalCluster (Sample.legacyAddress "0.0.0.0:9090"))
    = (ObjTemporalCluster cluster', None)
    /\ prometheusOf cluster' = Some (mkPrometheusSpec "" (Some 9090)).
Proof.
  apply (Default_migrates_listenAddress Sample.nothingOmitted
           Sample.withCertManager (Sample.legacyAddress "0.0.0.0:9090")
           "0.0.0.0:9090" "0.0.0.0" "9090" 9090).
  - exact nothingOmitted_leavesMetrics.
  - apply legacyAddress_needsMigration. discriminate.
  - exact HostPort_sample.
  - reflexivity.
  - unfold fitsInt32. lia.
Defined.

Lemma Default_malformed_address_witness :
  exists e,
    Default Sample.nothingOmitted Sample.withCertManager
      (ObjTemporalCluster (Sample.legacyAddress "not-an-address"))
    = (ObjTemporalCluster (Sample.legacyAddress "not-an-address"), Some e)
    /\ malformedAddress "not-an-address" e.
Proof.
  apply (Default_malformed_address Sample.nothingOmitted Sample.withCertManager
           (Sample.legacyAddress "not-an-address") "not-an-address").
  - apply legacyAddress_needsMigration. discriminate.
  - left. intros host port H. apply SplitHostPort_complete in H.
    vm_compute in H. discriminate H.
Defined.

Lemma Default_idempotent_witness :
  Default (TemporalCluster_Default Sample.defaults) Sample.withCertManager
    (ObjTemporalCluster Sample.metricsOffDefaulted)
  = (ObjTemporalCluster Sample.metricsOffDefaulted, None).
Proof.
  apply (Default_idempotent Sample.defaults Sample.withCertManager
           (ObjTemporalCluster Sample.metricsOff)
           (ObjTemporalCluster Sample.metricsOffDefaulted)).
  reflexivity.
Defined.

Lemma Default_port_unchecked_witness :
  exists cluster',
    Default Sample.nothingOmitted Sample.withCertManager
      (ObjTemporalCluster (Sample.legacyAddress "0.0.0.0:70000"))
    = (ObjTemporalCluster cluster', None)
    /\ prometheusOf cluster' = Some (mkPrometheusSpec "" (Some 70000)).
Proof.
  exact (proj2 (proj2 (Default_port_unchecked Sample.nothingOmitted
                         nothingOmitted_leavesMetrics))
           Sample.withCertManager (version.ofTriple 1 18 0)).
Defined.

(** C2: the error appended for an unavailable cert-manager is of kind
    Invalid; no Forbidden error sits at spec.mTLS.provider. *)
Lemma mTLS_error_is_not_Forbidden :
  MTLSWithCertManagerEnabled Sample.withMTLS = true
  /\ CertManager (AvailableAPIs_ Sample.withoutCertManager) = false
  /\ ~ exists e,
         In e (validateCluster Sample.supported Sample.supportedString
                 Sample.withoutCertManager Sample.withMTLS)
         /\ Type_ e = ErrorTypeForbidden
         /\ Field e = "spec.mTLS.provider".
Proof.
  split; [reflexivity|]. split; [reflexivity|].
  intros (e & Hin & Htype & _). vm_compute in Hin.
  destruct Hin as [<-|[]]. discriminate Htype.
Qed.

Lemma validateCluster_mTLS_gate_witness :
  (exists rest,
      validateCluster Sample.supported Sample.supportedString
        Sample.withoutCertManager Sample.withMTLS
      = mkFieldError ErrorTypeInvalid "spec.mTLS.provider" CertManagerMTLSProvider
          "Can't use cert-manager as mTLS provider as it's not available in the cluster"
        :: rest
      /\ ~ hasErrorAt "spec.mTLS.provider" rest)
  /\ ~ hasErrorAt "spec.mTLS.provider"
         (validateCluster Sample.supported Sample.supportedString
            Sample.withCertManager Sample.withMTLS).
Proof.
  split.
  - apply (validateCluster_mTLS_gate Sample.supported Sample.supportedString
             Sample.withoutCertManager Sample.withMTLS); reflexivity.
  - apply (validateCluster_mTLS_gate Sample.supported Sample.supportedString
             Sample.withCertManager Sample.withMTLS); reflexivity.
Defined.

Lemma ValidateCreate_unsupported_version_witness :
  exists errs,
    ValidateCreate Sample.supported Sample.supportedString Sample.withCertManager
      (ObjTemporalCluster (Sample.bare (version.ofTriple 1 30 0)))
    = Some (NewInvalid Sample.groupKind "prod" errs)
    /\ errs <> []
    /\ In (mkFieldError ErrorTypeForbidden "spec.version" ""
             "Unsupported temporal version (supported: >=1.17.0 <1.24.0)")
          errs.
Proof.
  apply (ValidateCreate_unsupported_version Sample.supported
           Sample.supportedString Sample.withCertManager
           (Sample.bare (version.ofTriple 1 30 0))).
  reflexivity.
Defined.

Lemma validateCluster_elasticsearch_v6_witness :
  In (mkFieldError ErrorTypeForbidden
        "spec.persistence.advancedVisibilityStore.elasticsearch.version" ""
        "temporal cluster version >= 1.18.0 doesn't support ElasticSearch v6")
     (validateCluster Sample.supported Sample.supportedString
        Sample.withCertManager (Sample.legacySearch (version.ofTriple 1 18 0)))
  /\ ~ hasErrorAt "spec.persistence.advancedVisibilityStore.elasticsearch.version"
         (validateCluster Sample.supported Sample.supportedString
            Sample.withCertManager (Sample.legacySearch (version.ofTriple 1 17 9))).
Proof.
  assert (Hstore : forall v, elasticsearchVersion (Sample.legacySearch v) "v6").
  { intros v. exists (mkDatastoreSpec (Some (mkElasticsearchSpec "v6"))),
      (mkElasticsearchSpec "v6"). auto. }
  destruct (validateCluster_elasticsearch_v6 Sample.supported
              Sample.supportedString Sample.withCertManager
              (Sample.legacySearch (version.ofTriple 1 18 0)) (Hstore _))
    as (Hfires & _ & Hat & _).
  destruct (validateCluster_elasticsearch_v6 Sample.supported
              Sample.supportedString Sample.withCertManager
              (Sample.legacySearch (version.ofTriple 1 17 9)) (Hstore _))
    as (_ & Hquiet & _ & Hbelow).
  split; [exact (Hfires Hat) | exact (Hquiet Hbelow)].
Defined.

Lemma ValidateUpdate_sequential_upgrade_witness :
  exists errs,
    ValidateUpdate Sample.supported Sample.supportedString Sample.withCertManager
      (ObjTemporalCluster (Sample.bare (version.ofTriple 1 17 5)))
      (ObjTemporalCluster (Sample.bare (version.ofTriple 1 19 0)))
    = Some (NewInvalid Sample.groupKind "prod" errs)
    /\ In (sequentialUpgradeError) errs.
Proof.
  destruct (ValidateUpdate_sequential_upgrade Sample.supported
              Sample.supportedString Sample.withCertManager
              (Sample.bare (version.ofTriple 1 17 5))
              (Sample.bare (version.ofTriple 1 19 0))
              (version.mkSemVer 1 17 5) eq_refl)
    as (errs & Hrun & _ & Hskip & _ & Hcases).
  exists errs.
  assert (Hnot : ~ sequentialUpgrade (version.mkSemVer 1 17 5)
                     (version.ofTriple 1 19 0)).
  { intros (c & Hc & _ & Hminor). injection Hc as <-. discriminate Hminor. }
  split.
  - rewrite Hrun, (Hskip Hnot). reflexivity.
  - apply (Hcases (version.mkSemVer 1 19 0) eq_refl).
    right. right. reflexivity.
Defined.

Lemma ValidateUpdate_unparsed_old_version_witness :
  ValidateUpdate Sample.supported Sample.supportedString Sample.withoutCertManager
    (ObjTemporalCluster (Sample.bare Sample.unparsed))
    (ObjTemporalCluster Sample.withMTLS)
  = Some (Errorf "can't compute version upgrade constraint"
            (errors_New "malformed-version")).
Proof.
  apply (ValidateUpdate_unparsed_old_version Sample.supported
           Sample.supportedString Sample.withoutCertManager
           (Sample.bare Sample.unparsed) Sample.withMTLS).
  reflexivity.
Defined.

(** ** The further properties at the sample configuration *)

Lemma ValidateUpdate_reads_old_version_only_witness :
  ValidateUpdate Sample.supported Sample.supportedString Sample.withCertManager
    (ObjTemporalCluster (Sample.bare (version.ofTriple 1 17 5)))
    (ObjTemporalCluster (Sample.bare (version.ofTriple 1 18 0)))
  = ValidateUpdate Sample.supported Sample.supportedString Sample.withCertManager
      (ObjTemporalCluster (Sample.legacySearch (version.ofTriple 1 17 5)))
      (ObjTemporalCluster (Sample.bare (version.ofTriple 1 18 0))).
Proof.
  apply (ValidateUpdate_reads_old_version_only Sample.supported
           Sample.supportedString Sample.withCertManager
           (Sample.bare (version.ofTriple 1 17 5))
           (Sample.legacySearch (version.ofTriple 1 17 5))).
  reflexivity.
Defined.

Lemma ValidateUpdate_keeps_create_errors_witness :
  exists more,
    ValidateUpdate Sample.supported Sample.supportedString Sample.withCertManager
      (ObjTemporalCluster (Sample.bare (version.ofTriple 1 17 5)))
      (ObjTemporalCluster (Sample.bare (version.ofTriple 1 30 0)))
    = Some (NewInvalid Sample.groupKind "prod"
              ([unsupportedVersionError Sample.supportedString] ++ more)%list)
    /\ (more = [] \/ more = [sequentialUpgradeError]).
Proof.
  apply (ValidateUpdate_keeps_create_errors Sample.supported
           Sample.supportedString Sample.withCertManager
           (Sample.bare (version.ofTriple 1 17 5))
           (Sample.bare (version.ofTriple 1 30 0))
           (fun candidate =>
              N.eqb (version.Major candidate) 1
              && N.eqb (version.Minor candidate) (17 + 1))).
  - reflexivity.
  - reflexivity.
Defined.

Lemma Default_skips_migration_witness :
  Default Sample.nothingOmitted Sample.withCertManager
    (ObjTemporalCluster
       (Sample.cluster (version.ofTriple 1 18 0)
          (Sample.prometheus "not-an-address" (Some 9090)) None None))
  = (ObjTemporalCluster
       (Sample.cluster (version.ofTriple 1 18 0)
          (Sample.prometheus "not-an-address" (Some 9090)) None None),
     None).
Proof.
  apply (Default_skips_migration Sample.nothingOmitted Sample.withCertManager
           (Sample.cluster (version.ofTriple 1 18 0)
              (Sample.prometheus "not-an-address" (Some 9090)) None None)).
  right. right. exists (mkPrometheusSpec "not-an-address" (Some 9090)).
  split; [reflexivity|]. right. discriminate.
Defined.

Lemma Default_fails_only_on_malformed_address_witness :
  exists address,
    needsMigration (Sample.legacyAddress "0.0.0.0:http") address
    /\ malformedAddress address
         (Errorf "can't parse prometheus spec.metrics.prometheus.listenAddress port"
            (NumError "ParseInt" "http" ErrSyntax))
    /\ ~ (exists host port n,
             HostPort address host port /\ base10 port = Some n /\ fitsInt32 n).
Proof.
  apply (Default_fails_only_on_malformed_address Sample.nothingOmitted
           Sample.withCertManager (Sample.legacyAddress "0.0.0.0:http")
           (ObjTemporalCluster (Sample.legacyAddress "0.0.0.0:http"))).
  reflexivity.
Defined.

Lemma Default_migration_frame_witness :
  exists migrated,
    Sample.migrated = Sample.nothingOmitted migrated
    /\ GetName migrated = "prod"
    /\ GroupVersionKind_GroupKind migrated = Sample.groupKind
    /\ Version (Spec migrated) = version.ofTriple 1 18 0
    /\ MTLS (Spec migrated) = None
    /\ Persistence (Spec migrated) = mkTemporalPersistenceSpec None
    /\ MetricsEnabled (Metrics (Spec migrated)) = true
    /\ validateCluster Sample.supported Sample.supportedString
         Sample.withCertManager migrated
       = validateCluster Sample.supported Sample.supportedString
           Sample.withCertManager (Sample.legacyAddress "0.0.0.0:9090").
Proof.
  apply (Default_migration_frame Sample.supported Sample.supportedString
           Sample.nothingOmitted Sample.withCertManager
           (Sample.legacyAddress "0.0.0.0:9090") Sample.migrated).
  reflexivity.
Defined.

Lemma HostPort_sample_literal : HostPort "[::1]:9090" "::1" "9090".
Proof.
  apply (HostPort_literal "::1" "9090");
    repeat split; simpl; intros H;
    repeat (destruct H as [H|H]; [discriminate H|]); exact H.
Qed.

Lemma Default_drops_host_witness :
  Default Sample.nothingOmitted Sample.withCertManager
    (ObjTemporalCluster (set_ListenAddress "0.0.0.0:9090" (Sample.legacyAddress "")))
  = Default Sample.nothingOmitted Sample.withCertManager
      (ObjTemporalCluster (set_ListenAddress "[::1]:9090" (Sample.legacyAddress "")))
  /\ snd (Default Sample.nothingOmitted Sample.withCertManager
            (ObjTemporalCluster
               (set_ListenAddress "0.0.0.0:9090" (Sample.legacyAddress ""))))
     = None.
Proof.
  apply (Default_drops_host Sample.nothingOmitted Sample.withCertManager
           (Sample.legacyAddress "") (mkPrometheusSpec "" None)
           "0.0.0.0:9090" "[::1]:9090" "0.0.0.0" "::1" "9090" 9090).
  - reflexivity.
  - reflexivity.
  - reflexivity.
  - exact HostPort_sample.
  - exact HostPort_sample_literal.
  - reflexivity.
  - unfold fitsInt32. lia.
Defined.

Lemma Default_address_without_colon_witness :
  Default Sample.nothingOmitted Sample.withCertManager
    (ObjTemporalCluster (Sample.legacyAddress "not-an-address"))
  = (ObjTemporalCluster (Sample.legacyAddress "not-an-address"),
     Some (Errorf "can't parse prometheus spec.metrics.prometheus.listenAddress"
             (AddrError "missing port in address" "not-an-address"))).
Proof.
  apply (Default_address_without_colon Sample.nothingOmitted
           Sample.withCertManager (Sample.legacyAddress "not-an-address")
           "not-an-address").
  - apply legacyAddress_needsMigration. discriminate.
  - simpl. intros H.
    repeat (destruct H as [H|H]; [discriminate H|]). exact H.
Defined.

Lemma useLoadedImage_changes_operator_only_witness :
  nth_error
    (e2e.useLoadedImage
       [e2e.mkContainer "manager"
          "ghcr.io/alexandrevilain/temporal-operator:v0.16.0" "Always"])
    0
  = Some (e2e.mkContainer "manager" "temporal-operator" "IfNotPresent")
  /\ nth_error
       (e2e.useLoadedImage
          [e2e.mkContainer "manager"
             "ghcr.io/alexandrevilain/temporal-operator:v0.16.0" "Always";
           e2e.mkContainer "kube-rbac-proxy"
             "gcr.io/kubebuilder/kube-rbac-proxy:v0.13.1" ""])
       1
     = Some (e2e.mkContainer "kube-rbac-proxy"
               "gcr.io/kubebuilder/kube-rbac-proxy:v0.13.1" "")
  /\ e2e.useLoadedImage [] = [].
Proof.
  split; [|split].
  - destruct (useLoadedImage_changes_operator_only
                [e2e.mkContainer "manager"
                   "ghcr.io/alexandrevilain/temporal-operator:v0.16.0" "Always"])
      as (_ & _ & Hnth & _).
    apply (Hnth 0%nat _ eq_refl). now exists "", ":v0.16.0".
  - destruct (useLoadedImage_changes_operator_only
                [e2e.mkContainer "manager"
                   "ghcr.io/alexandrevilain/temporal-operator:v0.16.0" "Always";
                 e2e.mkContainer "kube-rbac-proxy"
                   "gcr.io/kubebuilder/kube-rbac-proxy:v0.13.1" ""])
      as (_ & _ & Hnth & _).
    apply (Hnth 1%nat _ eq_refl).
    intros (before & after & H).
    assert (Hc : e2e.Contains "gcr.io/kubebuilder/kube-rbac-proxy:v0.13.1"
                   e2e.publishedImage = true)
      by (apply Contains_spec; exists before, after; exact H).
    vm_compute in Hc. discriminate Hc.
  - destruct (e2e.useLoadedImage []) as [|c rest] eqn:E; [reflexivity|].
    pose proof (proj1 (useLoadedImage_changes_operator_only [])) as Hlen.
    rewrite E in Hlen. discriminate Hlen.
Defined.
